(** * BG-models: semantic annotation of blood volume / pressure variables

    A shallow embedding of [create_annotations.py].  The script reads the
    [cmeta:id] attributes of a CellML document, sorts them into volume,
    pressure and flow identifiers, and writes RDF triples that tie every
    volume / pressure variable to an OPB quantity kind and to a local
    "blood that is part of <cavity>" node.

    Conventions of the embedding
    - [URIRef] is a Python [str] subclass that compares by its text, so a
      URI is a [string]; [Namespace.__getitem__] is string concatenation.
    - An rdflib [Graph] is a set of triples whose in-memory store keeps its
      indices in insertion-ordered dictionaries.  It is modelled as a
      duplicate-free list in insertion order: [Graph.add] of a triple that is
      already present changes nothing.
    - The module-level counter, the graph created by the driver and the
      text written by [print] form the [process] state; effectful functions
      live in the state monad [M].
    - Python's unbounded [int] is [Z]; an f-string renders it in decimal
      ([pretty]). *)

From Stdlib Require Import ZArith String Ascii.
From stdpp Require Import base decidable option list strings pretty gmap.

Local Open Scope Z_scope.

(** ** Strings *)

(** [s.endswith(suffix)] *)
Fixpoint endswith (s suffix : string) : bool :=
  if String.eqb s suffix then true
  else match s with
       | EmptyString => false
       | String _ s' => endswith s' suffix
       end.

(** [s.split(sep)[0]] for a one-character separator: the text before the
    first separator, or all of [s] when there is none. *)
Fixpoint split_head (sep : ascii) (s : string) : string :=
  match s with
  | EmptyString => EmptyString
  | String c s' => if Ascii.eqb c sep then EmptyString
                   else String c (split_head sep s')
  end.

(** ** RDF terms, namespaces and the graph *)

Definition URIRef := string.

(** [Namespace(base)[name]] *)
Definition term (ns : string) (name : string) : URIRef := ns +:+ name.

Definition OMEXlib : string := "http://omex-library.org/".
Definition LOCAL : string := "http://omex-library.org/annotations.ttl#".
Definition BQBIOL : string := "http://biomodels.net/biology-qualifiers/".
Definition UBERON : string := "http://purl.obolibrary.org/obo/UBERON_".
Definition OPB : string := "http://bhi.washington.edu/OPB#".

Definition VOLUME_URI : URIRef := term OPB "OPB_00154".
Definition PRESSURE_URI : URIRef := term OPB "OPB_00509".
Definition BLOOD_URI : URIRef := term UBERON "0000178".

Definition triple : Type := URIRef * URIRef * URIRef.

Module Graph.

Abbreviation t := (list triple).

(** [Graph()] *)
Definition empty : t := [].

(** [g.add(tr)]: a graph is a set, a second insertion is a no-op. *)
Definition add (tr : triple) (g : t) : t :=
  if decide (tr ∈ g) then g else g ++ [tr].

(** Does [tr] match the pattern [(?subject, p, o)]? *)
Definition matches (p o : URIRef) (tr : triple) : bool :=
  bool_decide (tr.1.2 = p ∧ tr.2 = o).

(** The rows of [SELECT ?subject WHERE { ?subject ?predicate ?object }]
    with [?predicate] and [?object] bound to [p] and [o]. *)
Definition subjects (p o : URIRef) (g : t) : list URIRef :=
  (λ tr : triple, tr.1.1) <$> filter (λ tr, matches p o tr = true) g.

End Graph.

(** ** Process state and the state monad *)

Record process := Process {
  rdf_graph : Graph.t;            (* the graph [g] owned by the driver *)
  _LOCAL_ID_COUNTER : Z;          (* module-level global *)
  stdout : list string            (* lines written by [print] *)
}.

Definition M (A : Type) : Type := process → A * process.

Definition ret {A} (a : A) : M A := λ σ, (a, σ).

Definition bind {A B} (c : M A) (k : A → M B) : M B :=
  λ σ, let (a, σ') := c σ in k a σ'.

Declare Scope py_scope.
Delimit Scope py_scope with py.
Notation "x <- c ;; k" := (bind c (λ x, k))
  (at level 62, c at next level, right associativity) : py_scope.
Notation "c ;;; k" := (bind c (λ _, k))
  (at level 62, right associativity) : py_scope.
Local Open Scope py_scope.

Definition print (line : string) : M unit :=
  λ σ, (tt, Process (rdf_graph σ) (_LOCAL_ID_COUNTER σ) (stdout σ ++ [line])).

Definition graph_add (tr : triple) : M unit :=
  λ σ, (tt, Process (Graph.add tr (rdf_graph σ)) (_LOCAL_ID_COUNTER σ) (stdout σ)).

Definition graph_query (p o : URIRef) : M (list URIRef) :=
  λ σ, (Graph.subjects p o (rdf_graph σ), σ).

(** [g = Graph()] in the driver *)
Definition new_graph : M unit :=
  λ σ, (tt, Process Graph.empty (_LOCAL_ID_COUNTER σ) (stdout σ)).

(** [for x in xs: body(x)] *)
Fixpoint for_each {A} (xs : list A) (body : A → M unit) : M unit :=
  match xs with
  | [] => ret tt
  | x :: xs' => body x ;;; for_each xs' body
  end.

(** The interpreter right after the module body has run. *)
Definition startup : process := Process Graph.empty 1024 [].

(** ** The functions of [create_annotations.py] *)

Definition _get_local_id : M URIRef :=
  λ σ, let n := _LOCAL_ID_COUNTER σ + 1 in
       ("local-node-" +:+ pretty n, Process (rdf_graph σ) n (stdout σ)).

(** *** [get_model_ids] *)

(** The parsed document: an element carries its tag, its attribute
    dictionary (keys in Clark notation, [{namespace}name]) and its children
    in document order. *)
#[warnings="-register-all"]
Inductive element : Type :=
  Element (tag : string) (attrib : gmap string string) (children : list element).

(** [root.iter()]: the element and all its descendants, in document order. *)
Fixpoint iter (e : element) : list element :=
  match e with
  | Element _ _ children => e :: flat_map iter children
  end.

Definition attrib_of (e : element) : gmap string string :=
  match e with Element _ a _ => a end.

Record model_ids := ModelIds {
  volume_ids : list string;
  pressure_ids : list string;
  flow_ids : list string
}.

Definition cmeta_namespace : string := "http://www.cellml.org/metadata/1.0#".
Definition attribute_name : string := "id".
Definition qualified_name : string :=
  "{" +:+ cmeta_namespace +:+ "}" +:+ attribute_name.

(** The first loop: the list [attributes]. *)
Definition collect_attributes (root : element) : list string :=
  omap (λ elem, attrib_of elem !! qualified_name) (iter root).

(** One iteration of the second loop. *)
Definition classify (acc : model_ids) (value : string) : M model_ids :=
  if endswith value ".blood.volume" then
    ret (ModelIds (volume_ids acc ++ [value]) (pressure_ids acc) (flow_ids acc))
  else if endswith value ".blood.pressure" then
    ret (ModelIds (volume_ids acc) (pressure_ids acc ++ [value]) (flow_ids acc))
  else if endswith value ".blood.flow" then
    ret (ModelIds (volume_ids acc) (pressure_ids acc) (flow_ids acc ++ [value]))
  else
    print ("Unknown ID: " +:+ value) ;;; ret acc.

Fixpoint classify_all (acc : model_ids) (attributes : list string) : M model_ids :=
  match attributes with
  | [] => ret acc
  | value :: rest => acc' <- classify acc value ;; classify_all acc' rest
  end.

Definition get_model_ids (root : element) : M model_ids :=
  classify_all (ModelIds [] [] []) (collect_attributes root).

(** *** [map_to_uberon_cavity] *)

Definition cavity_map : gmap string string :=
  list_to_map
    [ ("lv", "0016514"); ("rv", "0016509"); ("la", "0016513");
      ("ra", "0016522"); ("pa", "0002012"); ("lung", "0000102");
      ("pulm-vein", "0002016"); ("brain", "0008998");
      ("brain-vein", "2005031"); ("aa", "0001496"); ("celiac", "0001640");
      ("sup-mes", "0001182"); ("stomach", "0000945"); ("spleen", "0036301");
      ("pancreas", "0001264"); ("intestine", "0000160"); ("colon", "0001155");
      ("portal-vein", "0002017"); ("liver", "0006877") ].

Definition map_to_uberon_cavity (cavity_abbr : string) : M URIRef :=
  match cavity_map !! cavity_abbr with
  | Some code => ret (term UBERON code)
  | None =>
      print ("Unknown cavity abbreviation: " +:+ cavity_abbr) ;;;
      ret (term UBERON "0001062")
  end.

(** *** [create_local_blood_cavity_definition] *)

Definition create_local_blood_cavity_definition (cavity_uri : URIRef) : M URIRef :=
  results <- graph_query (term BQBIOL "isPartOf") cavity_uri ;;
  match results with
  | subject :: _ => ret subject
  | [] =>
      local_id <- _get_local_id ;;
      let local_node := term LOCAL local_id in
      graph_add (local_node, term BQBIOL "is", BLOOD_URI) ;;;
      graph_add (local_node, term BQBIOL "isPartOf", cavity_uri) ;;;
      ret local_node
  end.

(** *** The two annotation emitters *)

Definition create_blood_volume_annotation (model : string) (model_id : string) : M unit :=
  let model_uri := term OMEXlib (model +:+ "#" +:+ model_id) in
  let cavity := split_head "." model_id in
  cavity_uri <- map_to_uberon_cavity cavity ;;
  local_node <- create_local_blood_cavity_definition cavity_uri ;;
  graph_add (model_uri, term BQBIOL "isPropertyOf", local_node) ;;;
  graph_add (model_uri, term BQBIOL "isVersionOf", VOLUME_URI).

Definition create_blood_pressure_annotation (model : string) (model_id : string) : M unit :=
  let model_uri := term OMEXlib (model +:+ "#" +:+ model_id) in
  let cavity := split_head "." model_id in
  cavity_uri <- map_to_uberon_cavity cavity ;;
  local_node <- create_local_blood_cavity_definition cavity_uri ;;
  graph_add (model_uri, term BQBIOL "isPropertyOf", local_node) ;;;
  graph_add (model_uri, term BQBIOL "isVersionOf", PRESSURE_URI).

(** *** The driver *)

Definition cellml_file : string := "models/cvs-model.cellml".

(** The two loops of the driver over an already classified document. *)
Definition annotate (ids : model_ids) : M unit :=
  new_graph ;;;
  for_each (volume_ids ids) (create_blood_volume_annotation cellml_file) ;;;
  for_each (pressure_ids ids) (create_blood_pressure_annotation cellml_file).

(** [__main__] up to the final serialisation; [None] stands for a missing
    model file, and the result is the exit status. *)
Definition main (model_file : option element) : M Z :=
  match model_file with
  | Some root =>
      ids <- get_model_ids root ;;
      annotate ids ;;;
      ret 0
  | None =>
      print ("CellML model file doesn't exist: " +:+ cellml_file) ;;;
      ret (-1)
  end.

(** * Vocabulary of the specification *)

(** The URI of the [n]-th local node, as [LOCAL[_get_local_id()]] builds it. *)
Definition local_node (n : Z) : URIRef :=
term LOCAL ("local-node-" +:+ pretty n).

Definition isLocal (u : URIRef) : Prop := ∃ n, u = local_node n.

Abbreviation bq_is := (term BQBIOL "is").
Abbreviation bq_isPartOf := (term BQBIOL "isPartOf").
Abbreviation bq_isPropertyOf := (term BQBIOL "isPropertyOf").
Abbreviation bq_isVersionOf := (term BQBIOL "isVersionOf").


(** The final state and the result of a computation. *)
Definition exec {A} (c : M A) (σ : process) : process := (c σ).2.
Definition eval {A} (c : M A) (σ : process) : A := (c σ).1.

(** What [map_to_uberon_cavity] returns, without the [print]. *)
Definition cavity_uri_of (cavity_abbr : string) : URIRef :=
  term UBERON (default "0001062" (cavity_map !! cavity_abbr)).

(** The common shape of the two emitters; the source has one copy per
    quantity kind ([emit_volume], [emit_pressure] below tie them to it). *)
Definition emit (quantity : URIRef) (model model_id : string) : M unit :=
  let model_uri := term OMEXlib (model +:+ "#" +:+ model_id) in
  let cavity := split_head "." model_id in
  cavity_uri <- map_to_uberon_cavity cavity ;;
  local_node <- create_local_blood_cavity_definition cavity_uri ;;
  graph_add (model_uri, bq_isPropertyOf, local_node) ;;;
  graph_add (model_uri, bq_isVersionOf, quantity).

(** A call into the module on the driver's graph. *)
Inductive call : Type :=
| Define (cavity_uri : URIRef)
| AnnotateVolume (model model_id : string)
| AnnotatePressure (model model_id : string).

Definition perform (c : call) : M unit :=
  match c with
  | Define cavity_uri => create_local_blood_cavity_definition cavity_uri ;;; ret tt
  | AnnotateVolume model model_id => create_blood_volume_annotation model model_id
  | AnnotatePressure model model_id => create_blood_pressure_annotation model model_id
  end.

(** A run: any sequence of calls on one graph. *)
Definition run (calls : list call) (σ : process) : process :=
  exec (for_each calls perform) σ.

(** A run starts on [Graph()]; the counter and the output are whatever the
    process has reached by then. *)
Definition fresh (counter : Z) (out : list string) : process :=
  Process Graph.empty counter out.

(** [n] is a local "blood, part of [location]" entity of [g]. *)
Definition blood_part_of (g : Graph.t) (n location : URIRef) : Prop :=
  (n, bq_is, BLOOD_URI) ∈ g ∧ (n, bq_isPartOf, location) ∈ g.

(** The invariant of a run whose counter started at [c0]. *)
Record run_inv (c0 : Z) (σ : process) : Prop := RunInv {
  inv_counter : c0 ≤ _LOCAL_ID_COUNTER σ;
  inv_nodup : NoDup (rdf_graph σ);
  inv_partof : ∀ s o, (s, bq_isPartOf, o) ∈ rdf_graph σ →
    (∃ n, c0 < n ≤ _LOCAL_ID_COUNTER σ ∧ s = local_node n) ∧
    (s, bq_is, BLOOD_URI) ∈ rdf_graph σ;
  inv_is : ∀ s o, (s, bq_is, o) ∈ rdf_graph σ →
    (∃ n, c0 < n ≤ _LOCAL_ID_COUNTER σ ∧ s = local_node n) ∧ o = BLOOD_URI;
  inv_one_subject : ∀ s1 s2 o,
    (s1, bq_isPartOf, o) ∈ rdf_graph σ → (s2, bq_isPartOf, o) ∈ rdf_graph σ → s1 = s2;
  inv_one_location : ∀ s o1 o2,
    (s, bq_isPartOf, o1) ∈ rdf_graph σ → (s, bq_isPartOf, o2) ∈ rdf_graph σ → o1 = o2;
  inv_vocabulary : ∀ tr, tr ∈ rdf_graph σ →
    tr.1.2 ∈ [bq_is; bq_isPartOf; bq_isPropertyOf; bq_isVersionOf]
}.

(** The stricter lookup that the comment in
    [create_local_blood_cavity_definition] asks for ("a suitable local
    entity"): subjects that are blood and part of the location. *)
Definition strict_subjects (o : URIRef) (g : Graph.t) : list URIRef :=
  filter (λ s, (s, bq_is, BLOOD_URI) ∈ g) (Graph.subjects bq_isPartOf o g).

Definition create_local_blood_cavity_definition_strict (cavity_uri : URIRef) : M URIRef :=
  λ σ, match strict_subjects cavity_uri (rdf_graph σ) with
       | subject :: _ => (subject, σ)
       | [] =>
           (local_id <- _get_local_id ;;
            let local_node := term LOCAL local_id in
            graph_add (local_node, bq_is, BLOOD_URI) ;;;
            graph_add (local_node, bq_isPartOf, cavity_uri) ;;;
            ret local_node) σ
       end.

(** Renaming of local-node numbers by [f]; every other URI is kept. *)
Definition renamed (f : Z → Z) (u u' : URIRef) : Prop :=
  (∃ n, u = local_node n ∧ u' = local_node (f n)) ∨ (¬ isLocal u ∧ u' = u).

Definition triple_renamed (f : Z → Z) (tr tr' : triple) : Prop :=
  renamed f tr.1.1 tr'.1.1 ∧ tr'.1.2 = tr.1.2 ∧ renamed f tr.2 tr'.2.

Definition graph_renamed (f : Z → Z) (g g' : Graph.t) : Prop :=
  Forall2 (triple_renamed f) g g'.

(** The classified kind of a model variable, and the emitter the driver
    calls for it. *)
Inductive kind : Type := Volume | Pressure.

Definition quantity_term (k : kind) : URIRef :=
  match k with Volume => VOLUME_URI | Pressure => PRESSURE_URI end.

Definition annotation (k : kind) : string → string → M unit :=
  match k with
  | Volume => create_blood_volume_annotation
  | Pressure => create_blood_pressure_annotation
  end.

(** The last branch of the classification: none of the three suffixes. *)
Definition unrecognised (value : string) : bool :=
  negb (endswith value ".blood.volume") &&
  negb (endswith value ".blood.pressure") &&
  negb (endswith value ".blood.flow").

(** The line that [get_model_ids] prints for a dropped value. *)
Definition unknown_id_line (value : string) : string := "Unknown ID: " +:+ value.

(** Renumbering by a constant offset, and two states that differ by it,
    the counter included. *)
Definition shift (d : Z) : Z → Z := λ n, n + d.

Definition similar (d : Z) (σ σ' : process) : Prop :=
  graph_renamed (shift d) (rdf_graph σ) (rdf_graph σ') ∧
  _LOCAL_ID_COUNTER σ' = _LOCAL_ID_COUNTER σ + d.

(** The URI of a variable of the driver's model file, the location its
    cavity resolves to, and the warning its cavity causes (none for a
    cavity of the table). *)
Definition variable_uri (model_id : string) : URIRef :=
  term OMEXlib (cellml_file +:+ "#" +:+ model_id).

Definition location_of (model_id : string) : URIRef :=
  cavity_uri_of (split_head "." model_id).

Definition cavity_warning (model_id : string) : list string :=
  match cavity_map !! split_head "." model_id with
  | Some _ => []
  | None => ["Unknown cavity abbreviation: " +:+ split_head "." model_id]
  end.

(** The triples that annotating the variables [volumes] and [pressures]
    can leave in a graph [g]: the pair of a local node for the location of
    one of them, the tie of a variable to such a node, and the quantity
    kind of a variable. *)
Inductive annotation_of (volumes pressures : list string) (g : Graph.t) : triple → Prop :=
| annotation_is n model_id :
    model_id ∈ volumes ++ pressures →
    blood_part_of g (local_node n) (location_of model_id) →
    annotation_of volumes pressures g (local_node n, bq_is, BLOOD_URI)
| annotation_isPartOf n model_id :
    model_id ∈ volumes ++ pressures →
    blood_part_of g (local_node n) (location_of model_id) →
    annotation_of volumes pressures g (local_node n, bq_isPartOf, location_of model_id)
| annotation_isPropertyOf n model_id :
    model_id ∈ volumes ++ pressures →
    blood_part_of g (local_node n) (location_of model_id) →
    annotation_of volumes pressures g
      (variable_uri model_id, bq_isPropertyOf, local_node n)
| annotation_volume model_id :
    model_id ∈ volumes →
    annotation_of volumes pressures g (variable_uri model_id, bq_isVersionOf, VOLUME_URI)
| annotation_pressure model_id :
    model_id ∈ pressures →
    annotation_of volumes pressures g (variable_uri model_id, bq_isVersionOf, PRESSURE_URI).

(** * Verification *)

(* The table is looked up by computation only where a proof asks for it. *)
Opaque cavity_map.

(** ** Facts about strings *)

Section strings.

Local Arguments String.eqb : simpl never.

Lemma endswith_refl s : endswith s s = true.
Proof. destruct s; simpl; [done|]. by rewrite String.eqb_refl. Qed.

Lemma endswith_cons c s suffix :
  endswith (String c s) suffix = true ↔
  String c s = suffix ∨ endswith s suffix = true.
Proof.
  simpl. destruct (String.eqb_spec (String c s) suffix) as [E|E].
  - split; [by left | done].
  - split; [by right | by intros [?|?]].
Qed.

Lemma endswith_nil suffix : endswith "" suffix = true ↔ suffix = "".
Proof.
  simpl. by destruct (String.eqb_spec "" suffix).
Qed.

(** [endswith] is what its name says. *)
Lemma endswith_spec s suffix :
  endswith s suffix = true ↔ ∃ front, s = front +:+ suffix.
Proof.
  induction s as [|c s IH].
  - rewrite endswith_nil. split.
    + intros ->. by exists "".
    + intros [[|? ?] H]; simpl in H; [done | discriminate].
  - rewrite endswith_cons, IH. split.
    + intros [<- | [front ->]]; [by exists "" | by exists (String c front)].
    + intros [[|c' front] H]; simpl in H; [by left |].
      injection H as <- ->. right. by exists front.
Qed.

(** Two suffixes of one string are comparable. *)
Lemma endswith_comparable s a b :
  endswith s a = true → endswith s b = true →
  endswith a b = true ∨ endswith b a = true.
Proof.
  induction s as [|c s IH].
  - rewrite !endswith_nil. intros -> ->. by left.
  - rewrite !endswith_cons. intros [<- | Ha] [<- | Hb].
    + left. apply endswith_refl.
    + left. apply endswith_cons. by right.
    + right. apply endswith_cons. by right.
    + by apply IH.
Qed.

Lemma endswith_exclusive s a b :
  endswith a b = false → endswith b a = false →
  endswith s a = true → endswith s b = false.
Proof.
  intros Hab Hba Ha. destruct (endswith s b) eqn:Hb; [|done].
  destruct (endswith_comparable s a b Ha Hb); congruence.
Qed.

End strings.

(** ** Facts about URIs *)

Section uris.

Lemma local_node_inj n m : local_node n = local_node m → n = m.
Proof.
  unfold local_node, term. intros H.
  apply (inj (String.app LOCAL)) in H.
  apply (inj (String.app "local-node-")) in H.
  by apply (inj pretty) in H.
Qed.

Lemma local_node_ne n m : n ≠ m → local_node n ≠ local_node m.
Proof. intros Hne H. by apply Hne, local_node_inj. Qed.

Lemma uberon_not_local code : ¬ isLocal (term UBERON code).
Proof. intros [n H]. discriminate H. Qed.

Lemma blood_not_local : ¬ isLocal BLOOD_URI.
Proof. apply uberon_not_local. Qed.

Lemma opb_not_local name : ¬ isLocal (term OPB name).
Proof. intros [n H]. discriminate H. Qed.

(** The driver's model file lives under [models/], so none of its variable
    URIs falls into the [annotations.ttl#] namespace. *)
Lemma cellml_uri_not_local model_id :
  ¬ isLocal (term OMEXlib (cellml_file +:+ "#" +:+ model_id)).
Proof. intros [n H]. discriminate H. Qed.

Lemma term_inj ns a b : term ns a = term ns b → a = b.
Proof. apply (inj (String.app ns)). Qed.

End uris.

(** ** Facts about the graph *)

Section graph.
Implicit Types (g : Graph.t) (tr : triple) (s p o : URIRef).

Lemma elem_of_add tr tr' g : tr ∈ Graph.add tr' g ↔ tr ∈ g ∨ tr = tr'.
Proof.
  unfold Graph.add. case_decide as Hin.
  - split; [by left | by intros [?| ->]].
  - rewrite elem_of_app, list_elem_of_singleton. done.
Qed.

Lemma add_present tr g : tr ∈ g → Graph.add tr g = g.
Proof. intros Hin. unfold Graph.add. by rewrite decide_True. Qed.

Lemma add_absent tr g : tr ∉ g → Graph.add tr g = g ++ [tr].
Proof. intros Hin. unfold Graph.add. by rewrite decide_False. Qed.

Lemma add_idemp tr g : Graph.add tr (Graph.add tr g) = Graph.add tr g.
Proof. apply add_present, elem_of_add. by right. Qed.

Lemma add_prefix tr g : g `prefix_of` Graph.add tr g.
Proof.
  unfold Graph.add. case_decide; [done | by apply prefix_app_r].
Qed.

Lemma add_NoDup tr g : NoDup g → NoDup (Graph.add tr g).
Proof.
  intros Hnd. unfold Graph.add. case_decide as Hin; [done|].
  apply NoDup_app. split_and!; [done | | apply NoDup_singleton].
  intros x Hx ->%list_elem_of_singleton. done.
Qed.

Lemma matches_true p o tr :
  Graph.matches p o tr = true ↔ ∃ s, tr = (s, p, o).
Proof.
  unfold Graph.matches. rewrite bool_decide_eq_true.
  destruct tr as [[s p'] o']; simpl. split.
  - intros [-> ->]. by exists s.
  - intros [s' [= _ -> ->]]. done.
Qed.

Lemma elem_of_subjects s p o g : s ∈ Graph.subjects p o g ↔ (s, p, o) ∈ g.
Proof.
  unfold Graph.subjects. rewrite list_elem_of_fmap. split.
  - intros [tr [-> [Hm Hin]%list_elem_of_filter]].
    apply matches_true in Hm as [s' ->]. done.
  - intros Hin. exists (s, p, o). split; [done|].
    apply list_elem_of_filter. split; [|done]. apply matches_true. by exists s.
Qed.

Lemma subjects_nil p o g : Graph.subjects p o g = [] ↔ ∀ s, (s, p, o) ∉ g.
Proof.
  split.
  - intros H s Hin%elem_of_subjects. rewrite H in Hin. by apply not_elem_of_nil in Hin.
  - intros H. destruct (Graph.subjects p o g) as [|s l] eqn:E; [done|].
    exfalso. apply (H s), elem_of_subjects. rewrite E. by left.
Qed.

Lemma subjects_app p o g g' :
  Graph.subjects p o (g ++ g') = Graph.subjects p o g ++ Graph.subjects p o g'.
Proof. unfold Graph.subjects. by rewrite filter_app, fmap_app. Qed.

Lemma subjects_singleton_other p o tr :
  Graph.matches p o tr = false → Graph.subjects p o [tr] = [].
Proof.
  intros H. unfold Graph.subjects. rewrite filter_cons_False; [done|]. by rewrite H.
Qed.

Lemma subjects_singleton_match s p o : Graph.subjects p o [(s, p, o)] = [s].
Proof.
  unfold Graph.subjects. rewrite filter_cons_True; [done|].
  apply matches_true. by exists s.
Qed.

(** Adding a triple with another predicate leaves the rows unchanged. *)
Lemma subjects_add_other p o tr g :
  tr.1.2 ≠ p → Graph.subjects p o (Graph.add tr g) = Graph.subjects p o g.
Proof.
  intros Hne. unfold Graph.add. case_decide; [done|].
  rewrite subjects_app, subjects_singleton_other, app_nil_r; [done|].
  unfold Graph.matches. apply bool_decide_eq_false. by intros [? _].
Qed.

(** The first row of a non-empty result stays the first row. *)
Lemma subjects_add_head p o tr g s rest :
  Graph.subjects p o g = s :: rest →
  ∃ rest', Graph.subjects p o (Graph.add tr g) = s :: rest'.
Proof.
  intros H. unfold Graph.add. case_decide; [by exists rest|].
  rewrite subjects_app, H. by eexists.
Qed.

Lemma subjects_NoDup p o g : NoDup g → NoDup (Graph.subjects p o g).
Proof.
  intros Hnd. unfold Graph.subjects. apply NoDup_fmap_2_strong.
  - intros tr1 tr2 [Hm1 _]%list_elem_of_filter [Hm2 _]%list_elem_of_filter Heq.
    apply matches_true in Hm1 as [s1 ->]. apply matches_true in Hm2 as [s2 ->].
    simpl in Heq. by subst.
  - by apply NoDup_filter.
Qed.

Lemma filter_all {A} (P : A → Prop) `{∀ x, Decision (P x)} (l : list A) :
  Forall P l → filter P l = l.
Proof.
  induction 1 as [|x l Hx _ IH]; [done|]. by rewrite filter_cons_True, IH.
Qed.

End graph.

(** ** Equations of the functions *)

Section equations.
Implicit Types (σ : process) (g : Graph.t).

Lemma emit_volume : create_blood_volume_annotation = emit VOLUME_URI.
Proof. reflexivity. Qed.

Lemma emit_pressure : create_blood_pressure_annotation = emit PRESSURE_URI.
Proof. reflexivity. Qed.

Lemma map_to_uberon_cavity_eq cavity_abbr σ :
  map_to_uberon_cavity cavity_abbr σ =
  (cavity_uri_of cavity_abbr,
   Process (rdf_graph σ) (_LOCAL_ID_COUNTER σ)
     (stdout σ ++ match cavity_map !! cavity_abbr with
                  | Some _ => []
                  | None => ["Unknown cavity abbreviation: " +:+ cavity_abbr]
                  end)).
Proof.
  unfold map_to_uberon_cavity, cavity_uri_of.
  destruct (cavity_map !! cavity_abbr); destruct σ; simpl.
  - unfold ret. by rewrite app_nil_r.
  - reflexivity.
Qed.

Lemma define_eq cavity_uri σ :
  create_local_blood_cavity_definition cavity_uri σ =
  match Graph.subjects bq_isPartOf cavity_uri (rdf_graph σ) with
  | subject :: _ => (subject, σ)
  | [] =>
      let n := _LOCAL_ID_COUNTER σ + 1 in
      (local_node n,
       Process (Graph.add (local_node n, bq_isPartOf, cavity_uri)
                  (Graph.add (local_node n, bq_is, BLOOD_URI) (rdf_graph σ)))
               n (stdout σ))
  end.
Proof.
  unfold create_local_blood_cavity_definition, bind, graph_query.
  destruct (Graph.subjects _ _ _); reflexivity.
Qed.

Lemma emit_eq quantity model model_id σ :
  emit quantity model model_id σ =
  let model_uri := term OMEXlib (model +:+ "#" +:+ model_id) in
  let σ1 := exec (map_to_uberon_cavity (split_head "." model_id)) σ in
  let r := create_local_blood_cavity_definition
             (cavity_uri_of (split_head "." model_id)) σ1 in
  (tt, Process (Graph.add (model_uri, bq_isVersionOf, quantity)
                  (Graph.add (model_uri, bq_isPropertyOf, r.1) (rdf_graph r.2)))
               (_LOCAL_ID_COUNTER r.2) (stdout r.2)).
Proof.
  unfold emit, bind, exec. rewrite map_to_uberon_cavity_eq. simpl.
  by destruct (create_local_blood_cavity_definition _ _).
Qed.

Lemma exec_bind {A B} (c : M A) (k : A → M B) σ :
  exec (bind c k) σ = exec (k (eval c σ)) (exec c σ).
Proof. unfold exec, eval, bind. by destruct (c σ). Qed.

Lemma exec_ret {A} (a : A) σ : exec (ret a) σ = σ.
Proof. reflexivity. Qed.

Lemma exec_resolve cavity_abbr σ :
  rdf_graph (exec (map_to_uberon_cavity cavity_abbr) σ) = rdf_graph σ ∧
  _LOCAL_ID_COUNTER (exec (map_to_uberon_cavity cavity_abbr) σ) = _LOCAL_ID_COUNTER σ.
Proof. unfold exec. by rewrite map_to_uberon_cavity_eq. Qed.

Lemma exec_emit quantity model model_id σ :
  exec (emit quantity model model_id) σ =
  let model_uri := term OMEXlib (model +:+ "#" +:+ model_id) in
  let σ1 := exec (map_to_uberon_cavity (split_head "." model_id)) σ in
  let r := create_local_blood_cavity_definition
             (cavity_uri_of (split_head "." model_id)) σ1 in
  Process (Graph.add (model_uri, bq_isVersionOf, quantity)
             (Graph.add (model_uri, bq_isPropertyOf, r.1) (rdf_graph r.2)))
          (_LOCAL_ID_COUNTER r.2) (stdout r.2).
Proof. unfold exec at 1. by rewrite emit_eq. Qed.

Lemma exec_define cavity_uri σ :
  exec (create_local_blood_cavity_definition cavity_uri ;;; ret tt) σ
  = exec (create_local_blood_cavity_definition cavity_uri) σ.
Proof. by rewrite exec_bind. Qed.

Lemma run_nil σ : run [] σ = σ.
Proof. reflexivity. Qed.

Lemma run_cons c calls σ : run (c :: calls) σ = run calls (exec (perform c) σ).
Proof.
  unfold run, exec. simpl. unfold bind. by destruct (perform c σ).
Qed.

Lemma run_app calls1 calls2 σ : run (calls1 ++ calls2) σ = run calls2 (run calls1 σ).
Proof.
  revert σ. induction calls1 as [|c calls1 IH]; intros σ; [done|].
  simpl. by rewrite !run_cons, IH.
Qed.

End equations.

(** ** The run invariant *)

Section invariant.
Implicit Types (σ : process) (g : Graph.t).

Lemma run_inv_fresh c out : run_inv c (fresh c out).
Proof.
  split; simpl; try (intros; exfalso; by eapply not_elem_of_nil).
  - lia.
  - constructor.
Qed.

Lemma define_inv c0 cavity_uri σ :
  run_inv c0 σ → run_inv c0 (exec (create_local_blood_cavity_definition cavity_uri) σ).
Proof.
  intros [Hc Hnd Hpart His Hsubj Hloc Hvoc]. unfold exec. rewrite define_eq.
  destruct (Graph.subjects _ _ _) eqn:Hq; [|done].
  rewrite subjects_nil in Hq. simpl. split; simpl.
  - lia.
  - by do 2 apply add_NoDup.
  - intros s o. rewrite !elem_of_add. intros [[Hin | [=]] | [= -> ->]].
    + destruct (Hpart s o Hin) as [(n & Hn & ->) Hblood]. split; [|tauto].
      exists n. split; [lia | done].
    + split; [|tauto]. eexists. split; [|done]. lia.
  - intros s o. rewrite !elem_of_add. intros [[Hin | [= -> ->]] | [=]].
    + destruct (His s o Hin) as [(n & Hn & ->) ->]. split; [|done].
      exists n. split; [lia | done].
    + split; [|done]. eexists. split; [|done]. lia.
  - intros s1 s2 o. rewrite !elem_of_add.
    intros [[H1 | [=]] | [= -> ->]] [[H2 | [=]] | [= ->]]; subst.
    + by eapply Hsubj.
    + by apply Hq in H1.
    + by apply Hq in H2.
    + done.
  - intros s o1 o2. rewrite !elem_of_add.
    intros [[H1 | [=]] | [= -> ->]] [[H2 | [=]] | [= ->]]; subst.
    + by eapply Hloc.
    + destruct (Hpart _ _ H1) as [(n & Hn & Heq) _].
      apply local_node_inj in Heq. lia.
    + destruct (Hpart _ _ H2) as [(n & Hn & Heq) _].
      apply local_node_inj in Heq. lia.
    + done.
  - intros tr. rewrite !elem_of_add. intros [[Hin | ->] | ->]; simpl.
    + by apply Hvoc.
    + repeat constructor.
    + repeat constructor.
Qed.

Lemma resolve_inv c0 cavity_abbr σ :
  run_inv c0 σ → run_inv c0 (exec (map_to_uberon_cavity cavity_abbr) σ).
Proof.
  intros [Hc Hnd Hpart His Hsubj Hloc Hvoc]. unfold exec.
  rewrite map_to_uberon_cavity_eq. by split.
Qed.

Lemma emit_inv c0 quantity model model_id σ :
  run_inv c0 σ → run_inv c0 (exec (emit quantity model model_id) σ).
Proof.
  intros Hσ. rewrite exec_emit. cbn zeta.
  pose proof (define_inv c0 (cavity_uri_of (split_head "." model_id)) _
                (resolve_inv c0 (split_head "." model_id) σ Hσ)) as Hinv.
  unfold exec at 1 in Hinv.
  destruct (create_local_blood_cavity_definition _ _) as [node σ2]. simpl in *.
  destruct Hinv as [Hc Hnd Hpart His Hsubj Hloc Hvoc]. split; simpl.
  - done.
  - by do 2 apply add_NoDup.
  - intros s o. rewrite !elem_of_add. intros [[Hin | [=]] | [=]].
    destruct (Hpart s o Hin) as [? ?]. tauto.
  - intros s o. rewrite !elem_of_add. intros [[Hin | [=]] | [=]]. by apply His.
  - intros s1 s2 o. rewrite !elem_of_add.
    intros [[H1 | [=]] | [=]] [[H2 | [=]] | [=]]. by eapply Hsubj.
  - intros s o1 o2. rewrite !elem_of_add.
    intros [[H1 | [=]] | [=]] [[H2 | [=]] | [=]]. by eapply Hloc.
  - intros tr. rewrite !elem_of_add. intros [[Hin | ->] | ->]; simpl.
    + by apply Hvoc.
    + repeat constructor.
    + repeat constructor.
Qed.

Lemma perform_inv c0 c σ : run_inv c0 σ → run_inv c0 (exec (perform c) σ).
Proof.
  intros Hσ. destruct c as [cavity_uri | model model_id | model model_id]; simpl perform.
  - rewrite exec_define. by apply define_inv.
  - by apply emit_inv.
  - by apply emit_inv.
Qed.

Lemma run_inv_run c0 calls σ : run_inv c0 σ → run_inv c0 (run calls σ).
Proof.
  revert σ. induction calls as [|c calls IH]; intros σ Hσ; [done|].
  rewrite run_cons. by apply IH, perform_inv.
Qed.

End invariant.

(** ** The graph only grows, the counter only rises *)

Section growth.
Implicit Types (σ : process) (g : Graph.t).

Lemma annotation_emit k : annotation k = emit (quantity_term k).
Proof. by destruct k. Qed.

Lemma define_grows cavity_uri σ :
  rdf_graph σ `prefix_of`
    rdf_graph (exec (create_local_blood_cavity_definition cavity_uri) σ) ∧
  _LOCAL_ID_COUNTER σ ≤
    _LOCAL_ID_COUNTER (exec (create_local_blood_cavity_definition cavity_uri) σ).
Proof.
  unfold exec. rewrite define_eq. destruct (Graph.subjects _ _ _); simpl.
  - split; [|lia]. etrans; apply add_prefix.
  - done.
Qed.

Lemma emit_grows quantity model model_id σ :
  rdf_graph σ `prefix_of` rdf_graph (exec (emit quantity model model_id) σ) ∧
  _LOCAL_ID_COUNTER σ ≤ _LOCAL_ID_COUNTER (exec (emit quantity model model_id) σ).
Proof.
  rewrite exec_emit. cbn zeta.
  destruct (exec_resolve (split_head "." model_id) σ) as [Hg1 Hc1].
  set (σ1 := exec (map_to_uberon_cavity (split_head "." model_id)) σ) in *.
  destruct (define_grows (cavity_uri_of (split_head "." model_id)) σ1) as [Hg Hc].
  unfold exec in Hg, Hc.
  destruct (create_local_blood_cavity_definition _ σ1) as [node σ2]. simpl in *.
  rewrite Hg1 in Hg. rewrite Hc1 in Hc.
  split; [|done]. etrans; [exact Hg|]. etrans; apply add_prefix.
Qed.

Lemma perform_grows c σ :
  rdf_graph σ `prefix_of` rdf_graph (exec (perform c) σ) ∧
  _LOCAL_ID_COUNTER σ ≤ _LOCAL_ID_COUNTER (exec (perform c) σ).
Proof.
  destruct c as [cavity_uri | model model_id | model model_id]; simpl perform.
  - rewrite exec_define. apply define_grows.
  - apply emit_grows.
  - apply emit_grows.
Qed.

Lemma run_grows calls σ :
  rdf_graph σ `prefix_of` rdf_graph (run calls σ) ∧
  _LOCAL_ID_COUNTER σ ≤ _LOCAL_ID_COUNTER (run calls σ).
Proof.
  revert σ. induction calls as [|c calls IH]; intros σ; [done|].
  rewrite run_cons. destruct (perform_grows c σ) as [Hg Hc].
  destruct (IH (exec (perform c) σ)) as [Hg' Hc'].
  split; [by etrans | lia].
Qed.

Lemma elem_of_prefix (tr : triple) g g' : g `prefix_of` g' → tr ∈ g → tr ∈ g'.
Proof. intros [k ->] Hin. apply elem_of_app. by left. Qed.

(** The node that the deduplicator returns is part of the location. *)
Lemma define_part_of cavity_uri σ :
  let r := create_local_blood_cavity_definition cavity_uri σ in
  (r.1, bq_isPartOf, cavity_uri) ∈ rdf_graph r.2.
Proof.
  simpl. rewrite define_eq. destruct (Graph.subjects _ _ _) as [|s rest] eqn:Hq; simpl.
  - apply elem_of_add. by right.
  - apply elem_of_subjects. rewrite Hq. by left.
Qed.

(** Under the invariant the node of a location is found again. *)
Lemma define_found c0 cavity_uri n σ :
  run_inv c0 σ → (n, bq_isPartOf, cavity_uri) ∈ rdf_graph σ →
  create_local_blood_cavity_definition cavity_uri σ = (n, σ).
Proof.
  intros Hinv Hin. rewrite define_eq.
  destruct (Graph.subjects _ _ _) as [|s rest] eqn:Hq.
  - rewrite subjects_nil in Hq. by apply Hq in Hin.
  - f_equal. apply (inv_one_subject _ _ Hinv s n cavity_uri); [|done].
    apply elem_of_subjects. rewrite Hq. by left.
Qed.

(** Under the invariant the query has at most one row. *)
Lemma subjects_at_most_one c0 cavity_uri σ :
  run_inv c0 σ →
  Graph.subjects bq_isPartOf cavity_uri (rdf_graph σ) = [] ∨
  ∃ n, Graph.subjects bq_isPartOf cavity_uri (rdf_graph σ) = [n].
Proof.
  intros Hinv.
  pose proof (subjects_NoDup bq_isPartOf cavity_uri _ (inv_nodup _ _ Hinv)) as Hnd.
  destruct (Graph.subjects _ _ _) as [|s [|s' rest]] eqn:Hq; [by left | by right; exists s |].
  exfalso. assert (s = s') as ->.
  { apply (inv_one_subject _ _ Hinv s s' cavity_uri);
      apply elem_of_subjects; rewrite Hq; repeat constructor. }
  apply NoDup_cons in Hnd as [Hnd _]. apply Hnd. by left.
Qed.

Lemma emit_members quantity model model_id σ :
  let model_uri := term OMEXlib (model +:+ "#" +:+ model_id) in
  let g' := rdf_graph (exec (emit quantity model model_id) σ) in
  ∃ node,
    (node, bq_isPartOf, cavity_uri_of (split_head "." model_id)) ∈ g' ∧
    (model_uri, bq_isPropertyOf, node) ∈ g' ∧
    (model_uri, bq_isVersionOf, quantity) ∈ g'.
Proof.
  intros model_uri g'. subst g'. rewrite exec_emit. cbn zeta.
  pose proof (define_part_of (cavity_uri_of (split_head "." model_id))
                (exec (map_to_uberon_cavity (split_head "." model_id)) σ)) as Hpart.
  cbn zeta in Hpart.
  destruct (create_local_blood_cavity_definition _ _) as [node σ2]. simpl in *.
  exists node. rewrite !elem_of_add. split_and!; auto.
Qed.

End growth.

(** ** Classification *)

Section classification.
Implicit Types (σ : process) (acc : model_ids) (value : string).

Lemma suffixes_exclusive value :
  (endswith value ".blood.volume" = true →
   endswith value ".blood.pressure" = false ∧ endswith value ".blood.flow" = false) ∧
  (endswith value ".blood.pressure" = true →
   endswith value ".blood.volume" = false ∧ endswith value ".blood.flow" = false) ∧
  (endswith value ".blood.flow" = true →
   endswith value ".blood.volume" = false ∧ endswith value ".blood.pressure" = false).
Proof.
  split_and!; intros H; split;
    (eapply endswith_exclusive; [| | exact H]; reflexivity).
Qed.

Lemma classify_all_eq acc attributes σ :
  classify_all acc attributes σ =
  (ModelIds
     (volume_ids acc ++ filter (λ v, endswith v ".blood.volume" = true) attributes)
     (pressure_ids acc ++ filter (λ v, endswith v ".blood.pressure" = true) attributes)
     (flow_ids acc ++ filter (λ v, endswith v ".blood.flow" = true) attributes),
   Process (rdf_graph σ) (_LOCAL_ID_COUNTER σ)
     (stdout σ ++ (unknown_id_line <$> filter (λ v, unrecognised v = true) attributes))).
Proof.
  revert acc σ. induction attributes as [|value rest IH]; intros acc σ.
  - destruct acc, σ; simpl. unfold ret. by rewrite !app_nil_r.
  - simpl. unfold bind, classify, unrecognised.
    destruct (suffixes_exclusive value) as (Hv & Hp & Hf).
    rewrite !filter_cons.
    destruct (endswith value ".blood.volume") eqn:Ev.
    { destruct (Hv eq_refl) as [-> ->]. unfold ret. rewrite IH. simpl.
      repeat case_decide; try done. by rewrite <- !app_assoc. }
    destruct (endswith value ".blood.pressure") eqn:Ep.
    { destruct (Hp eq_refl) as [_ ->]. unfold ret. rewrite IH. simpl.
      repeat case_decide; try done. by rewrite <- !app_assoc. }
    destruct (endswith value ".blood.flow") eqn:Ef.
    { unfold ret. rewrite IH. simpl.
      repeat case_decide; try done. by rewrite <- !app_assoc. }
    unfold bind, print, ret. rewrite IH. simpl.
    repeat case_decide; try done. rewrite <- app_assoc. reflexivity.
Qed.

Lemma eval_get_model_ids root σ :
  eval (get_model_ids root) σ =
  ModelIds (filter (λ v, endswith v ".blood.volume" = true) (collect_attributes root))
           (filter (λ v, endswith v ".blood.pressure" = true) (collect_attributes root))
           (filter (λ v, endswith v ".blood.flow" = true) (collect_attributes root)).
Proof. unfold eval, get_model_ids. by rewrite classify_all_eq. Qed.

Lemma exec_get_model_ids root σ :
  rdf_graph (exec (get_model_ids root) σ) = rdf_graph σ ∧
  _LOCAL_ID_COUNTER (exec (get_model_ids root) σ) = _LOCAL_ID_COUNTER σ.
Proof. unfold exec, get_model_ids. by rewrite classify_all_eq. Qed.

Lemma unknown_id_line_inj v w : unknown_id_line v = unknown_id_line w → v = w.
Proof. apply (inj (String.app "Unknown ID: ")). Qed.

Lemma count_unknown_lines value attributes :
  length (filter (λ line, line = unknown_id_line value)
            (unknown_id_line <$> filter (λ v, unrecognised v = true) attributes))
  = length (filter (λ v, v = value ∧ unrecognised v = true) attributes).
Proof.
  induction attributes as [|a rest IH]; [done|].
  rewrite (filter_cons (λ v, v = value ∧ unrecognised v = true)).
  rewrite (filter_cons (λ v, unrecognised v = true)).
  destruct (decide (unrecognised a = true)) as [Hu|Hu].
  - rewrite fmap_cons, filter_cons.
    destruct (decide (a = value)) as [->|Hne].
    + rewrite decide_True by done. rewrite decide_True by done.
      simpl. by rewrite IH.
    + rewrite decide_False by (by intros ?%unknown_id_line_inj).
      rewrite decide_False by (by intros [? _]). done.
  - rewrite decide_False by (by intros [_ ?]). done.
Qed.

End classification.

(** ** Calling twice *)

Section twice.
Implicit Types (σ : process) (g : Graph.t).

(** After the deduplicator has run, its node heads the rows of its query. *)
Lemma define_again cavity_uri σ :
  let r := create_local_blood_cavity_definition cavity_uri σ in
  ∃ rest, Graph.subjects bq_isPartOf cavity_uri (rdf_graph r.2) = r.1 :: rest.
Proof.
  simpl. rewrite define_eq.
  destruct (Graph.subjects bq_isPartOf cavity_uri (rdf_graph σ)) as [|s rest] eqn:Hq;
    simpl.
  - exists []. rewrite (add_absent (_, bq_isPartOf, _)).
    + rewrite subjects_app, subjects_add_other, Hq by discriminate.
      by rewrite subjects_singleton_match.
    + rewrite elem_of_add. intros [Hin | [=]].
      rewrite subjects_nil in Hq. by apply Hq in Hin.
  - by exists rest.
Qed.

Lemma emit_again quantity model model_id σ :
  let σ1 := exec (emit quantity model model_id) σ in
  rdf_graph (exec (emit quantity model model_id) σ1) = rdf_graph σ1 ∧
  _LOCAL_ID_COUNTER (exec (emit quantity model model_id) σ1) = _LOCAL_ID_COUNTER σ1.
Proof.
  intros σ1. rewrite (exec_emit _ _ _ σ1). cbn zeta.
  destruct (exec_resolve (split_head "." model_id) σ1) as [Hg1 Hc1].
  set (σ1' := exec (map_to_uberon_cavity (split_head "." model_id)) σ1) in *.
  rewrite define_eq, Hg1, Hc1.
  subst σ1. rewrite exec_emit in *. cbn zeta in *.
  destruct (define_again (cavity_uri_of (split_head "." model_id))
              (exec (map_to_uberon_cavity (split_head "." model_id)) σ)) as [rest Hq].
  cbn zeta in Hq.
  destruct (create_local_blood_cavity_definition _
              (exec (map_to_uberon_cavity (split_head "." model_id)) σ)) as [node σ2].
  simpl in *.
  rewrite !subjects_add_other, Hq by discriminate. simpl.
  split; [|done]. rewrite Hg1.
  rewrite (add_present (_, bq_isPropertyOf, node)).
  - apply add_idemp.
  - rewrite !elem_of_add. auto.
Qed.

End twice.

(** ** Stepping through a run *)

Section stepping.
Implicit Types (σ : process) (g : Graph.t).

Lemma for_each_eq {A} (xs : list A) (body : A → M unit) σ :
  for_each xs body σ = (tt, exec (for_each xs body) σ).
Proof. unfold exec. by destruct (for_each xs body σ) as [[] ?]. Qed.

Lemma exec_for_each_cons {A} (x : A) xs (body : A → M unit) σ :
  exec (for_each (x :: xs) body) σ = exec (for_each xs body) (exec (body x) σ).
Proof. simpl. by rewrite exec_bind. Qed.

Lemma exec_for_each_nil {A} (body : A → M unit) σ : exec (for_each [] body) σ = σ.
Proof. reflexivity. Qed.

(** The lines that the resolver prints for an abbreviation. *)
Lemma exec_emit_found quantity model model_id g c out s rest :
  Graph.subjects bq_isPartOf (cavity_uri_of (split_head "." model_id)) g = s :: rest →
  exec (emit quantity model model_id) (Process g c out) =
  let model_uri := term OMEXlib (model +:+ "#" +:+ model_id) in
  Process (Graph.add (model_uri, bq_isVersionOf, quantity)
             (Graph.add (model_uri, bq_isPropertyOf, s) g))
          c
          (out ++ match cavity_map !! split_head "." model_id with
                  | Some _ => []
                  | None => ["Unknown cavity abbreviation: " +:+ split_head "." model_id]
                  end).
Proof.
  intros Hq. rewrite exec_emit. cbn zeta. unfold exec.
  rewrite map_to_uberon_cavity_eq. cbn [snd rdf_graph _LOCAL_ID_COUNTER stdout].
  rewrite define_eq. cbn [rdf_graph]. rewrite Hq. reflexivity.
Qed.

Lemma exec_emit_fresh quantity model model_id g c out :
  Graph.subjects bq_isPartOf (cavity_uri_of (split_head "." model_id)) g = [] →
  exec (emit quantity model model_id) (Process g c out) =
  let model_uri := term OMEXlib (model +:+ "#" +:+ model_id) in
  let node := local_node (c + 1) in
  Process (Graph.add (model_uri, bq_isVersionOf, quantity)
             (Graph.add (model_uri, bq_isPropertyOf, node)
                (Graph.add (node, bq_isPartOf, cavity_uri_of (split_head "." model_id))
                   (Graph.add (node, bq_is, BLOOD_URI) g))))
          (c + 1)
          (out ++ match cavity_map !! split_head "." model_id with
                  | Some _ => []
                  | None => ["Unknown cavity abbreviation: " +:+ split_head "." model_id]
                  end).
Proof.
  intros Hq. rewrite exec_emit. cbn zeta. unfold exec.
  rewrite map_to_uberon_cavity_eq. cbn [snd rdf_graph _LOCAL_ID_COUNTER stdout].
  rewrite define_eq. cbn [rdf_graph]. rewrite Hq. reflexivity.
Qed.

Lemma subjects_cons_other p o tr g :
  tr.1.2 ≠ p ∨ tr.2 ≠ o → Graph.subjects p o (tr :: g) = Graph.subjects p o g.
Proof.
  intros H. unfold Graph.subjects. rewrite filter_cons_False; [done|].
  intros [s ->]%matches_true. simpl in H. by destruct H.
Qed.

Lemma subjects_cons_match s p o g :
  Graph.subjects p o ((s, p, o) :: g) = s :: Graph.subjects p o g.
Proof.
  unfold Graph.subjects. rewrite filter_cons_True; [done|].
  apply matches_true. by exists s.
Qed.

Lemma triple_eq_inv (s p o s' p' o' : URIRef) :
  (s, p, o) = (s', p', o') → s = s' ∧ p = p' ∧ o = o'.
Proof. by intros [= -> -> ->]. Qed.

End stepping.

(** Membership of a triple in an explicit list of triples, refuted by a
    differing predicate, object or subject, or by the node numbers. *)
Ltac refute_triple H :=
  let Hs := fresh "Hs" in
  let Hp := fresh "Hp" in
  let Ho := fresh "Ho" in
  apply triple_eq_inv in H as (Hs & Hp & Ho);
  first [ discriminate Hp | discriminate Ho | discriminate Hs
        | apply local_node_inj in Hs; lia ].

Ltac not_in_graph :=
  let H := fresh "Hin" in
  intros H;
  repeat (apply elem_of_cons in H as [H | H]; [refute_triple H |]);
  by apply not_elem_of_nil in H.

Ltac step_add :=
  match goal with
  | |- context [Graph.add ?tr ?g] =>
      lazymatch g with
      | context [Graph.add] => fail
      | _ => rewrite (add_absent tr g) by not_in_graph; cbn [app]
      end
  end.

Ltac eval_subjects :=
  repeat first
    [ rewrite subjects_cons_match
    | rewrite subjects_cons_other by (cbn [fst snd]; first [left; discriminate | right; discriminate]) ];
  change (Graph.subjects ?p ?o []) with (@nil URIRef).

(** ** Renaming of local nodes *)

Section renaming.
Variable d : Z.
Local Abbreviation f := (shift d).
Implicit Types (σ : process) (g : Graph.t) (u : URIRef) (tr : triple).

Lemma shift_inj : Inj (=) (=) f.
Proof. intros n m. unfold shift. lia. Qed.

Lemma renamed_local n : renamed f (local_node n) (local_node (n + d)).
Proof. left. by exists n. Qed.

Lemma renamed_fixed u : ¬ isLocal u → renamed f u u.
Proof. by right. Qed.

Lemma renamed_functional u u1 u2 : renamed f u u1 → renamed f u u2 → u1 = u2.
Proof.
  intros [(n & -> & ->) | [Hn ->]] [(m & Hm & ->) | [Hm ->]].
  - by apply local_node_inj in Hm as ->.
  - exfalso. apply Hm. by exists n.
  - exfalso. apply Hn. by exists m.
  - done.
Qed.

Lemma renamed_injective u1 u2 u : renamed f u1 u → renamed f u2 u → u1 = u2.
Proof.
  intros [(n & -> & ->) | [Hn ->]] [(m & -> & Hm) | [Hm Heq]].
  - apply local_node_inj, shift_inj in Hm. by subst.
  - exfalso. apply Hm. rewrite <- Heq. by eexists.
  - exfalso. apply Hn. by eexists.
  - done.
Qed.

Lemma renamed_fixed_l u u' : ¬ isLocal u → renamed f u u' → u' = u.
Proof. intros Hu H. apply (renamed_functional u); [done | by apply renamed_fixed]. Qed.

Lemma renamed_fixed_r u u' : ¬ isLocal u' → renamed f u u' → u = u'.
Proof.
  intros Hu [(n & -> & ->) | [_ ->]]; [|done]. exfalso. apply Hu. by eexists.
Qed.

Lemma triple_renamed_functional tr tr1 tr2 :
  triple_renamed f tr tr1 → triple_renamed f tr tr2 → tr1 = tr2.
Proof.
  destruct tr as [[s p] o], tr1 as [[s1 p1] o1], tr2 as [[s2 p2] o2].
  intros (Hs1 & Hp1 & Ho1) (Hs2 & Hp2 & Ho2). simpl in *. subst.
  f_equal; [f_equal|]; by eapply renamed_functional.
Qed.

Lemma triple_renamed_injective tr1 tr2 tr :
  triple_renamed f tr1 tr → triple_renamed f tr2 tr → tr1 = tr2.
Proof.
  destruct tr as [[s p] o], tr1 as [[s1 p1] o1], tr2 as [[s2 p2] o2].
  intros (Hs1 & Hp1 & Ho1) (Hs2 & Hp2 & Ho2). simpl in *. subst.
  f_equal; [f_equal|]; by eapply renamed_injective.
Qed.

Lemma graph_renamed_elem_of g g' tr tr' :
  graph_renamed f g g' → triple_renamed f tr tr' → tr ∈ g ↔ tr' ∈ g'.
Proof.
  intros Hg Htr. induction Hg as [|x y g g' Hxy Hg IH].
  - split; intros H; by apply not_elem_of_nil in H.
  - rewrite !elem_of_cons, IH. split; intros [-> | ?]; auto; left.
    + by eapply triple_renamed_functional.
    + by eapply triple_renamed_injective.
Qed.

Lemma graph_renamed_add g g' tr tr' :
  graph_renamed f g g' → triple_renamed f tr tr' →
  graph_renamed f (Graph.add tr g) (Graph.add tr' g').
Proof.
  intros Hg Htr. pose proof (graph_renamed_elem_of g g' tr tr' Hg Htr) as Hiff.
  unfold Graph.add. destruct (decide (tr ∈ g)) as [Hin|Hin].
  - rewrite decide_True by by apply Hiff. done.
  - rewrite decide_False by (by rewrite <- Hiff).
    apply Forall2_app; [done|]. by constructor.
Qed.

Lemma graph_renamed_subjects g g' p o :
  graph_renamed f g g' → ¬ isLocal o →
  Forall2 (renamed f) (Graph.subjects p o g) (Graph.subjects p o g').
Proof.
  intros Hg Ho. induction Hg as [|tr tr' g g' Htr Hg IH]; [constructor|].
  destruct tr as [[s p1] o1], tr' as [[s' p1'] o1'].
  destruct Htr as (Hs & Hp & Hobj). simpl in *. subst p1'.
  destruct (decide (p1 = p ∧ o1 = o)) as [[-> ->] | Hno].
  - apply (renamed_fixed_l _ _ Ho) in Hobj as ->.
    rewrite !subjects_cons_match. by constructor.
  - rewrite !subjects_cons_other; [done | |].
    + simpl. destruct (decide (p1 = p)) as [->|]; [|by left]. right.
      intros ->. apply Hno. split; [done|]. by apply renamed_fixed_r in Hobj.
    + simpl. destruct (decide (p1 = p)) as [->|]; [|by left]. right.
      intros ->. by apply Hno.
Qed.

Lemma define_similar cavity_uri σ σ' :
  ¬ isLocal cavity_uri → similar d σ σ' →
  let r := create_local_blood_cavity_definition cavity_uri σ in
  let r' := create_local_blood_cavity_definition cavity_uri σ' in
  renamed f r.1 r'.1 ∧ similar d r.2 r'.2.
Proof.
  intros Hloc [Hg Hc]. cbn zeta. rewrite !define_eq.
  pose proof (graph_renamed_subjects _ _ bq_isPartOf cavity_uri Hg Hloc) as Hq.
  destruct Hq as [|s s' rest rest' Hs _]; cbn zeta; simpl.
  - rewrite Hc. replace (_LOCAL_ID_COUNTER σ + d + 1) with (_LOCAL_ID_COUNTER σ + 1 + d) by lia.
    split; [apply renamed_local|]. split; [|done]. simpl.
    apply graph_renamed_add; [apply graph_renamed_add; [done|]|].
    + split_and!; [apply renamed_local | done | apply renamed_fixed, blood_not_local].
    + split_and!; [apply renamed_local | done | by apply renamed_fixed].
  - done.
Qed.

Lemma emit_similar quantity model_id σ σ' :
  ¬ isLocal quantity → similar d σ σ' →
  similar d (exec (emit quantity cellml_file model_id) σ)
          (exec (emit quantity cellml_file model_id) σ').
Proof.
  intros Hq [Hg Hc]. rewrite !exec_emit. cbn zeta.
  destruct (exec_resolve (split_head "." model_id) σ) as [Hg1 Hc1].
  destruct (exec_resolve (split_head "." model_id) σ') as [Hg1' Hc1'].
  destruct (define_similar (cavity_uri_of (split_head "." model_id))
              (exec (map_to_uberon_cavity (split_head "." model_id)) σ)
              (exec (map_to_uberon_cavity (split_head "." model_id)) σ'))
    as [Hnode [Hg2 Hc2]].
  { apply uberon_not_local. }
  { split; [by rewrite Hg1, Hg1' | by rewrite Hc1, Hc1']. }
  destruct (create_local_blood_cavity_definition _
              (exec (map_to_uberon_cavity (split_head "." model_id)) σ)) as [node σ2].
  destruct (create_local_blood_cavity_definition _
              (exec (map_to_uberon_cavity (split_head "." model_id)) σ')) as [node' σ2'].
  simpl in *. split; [|done]. simpl.
  apply graph_renamed_add; [apply graph_renamed_add; [done|]|].
  - split_and!; [apply renamed_fixed, cellml_uri_not_local | done | done].
  - split_and!; [apply renamed_fixed, cellml_uri_not_local | done | by apply renamed_fixed].
Qed.

Lemma for_each_emit_similar quantity ids σ σ' :
  ¬ isLocal quantity → similar d σ σ' →
  similar d (exec (for_each ids (emit quantity cellml_file)) σ)
          (exec (for_each ids (emit quantity cellml_file)) σ').
Proof.
  intros Hq. revert σ σ'. induction ids as [|id ids IH]; intros σ σ' Hsim; [done|].
  rewrite !exec_for_each_cons. by apply IH, emit_similar.
Qed.

Lemma annotate_similar ids σ σ' :
  _LOCAL_ID_COUNTER σ' = _LOCAL_ID_COUNTER σ + d →
  similar d (exec (annotate ids) σ) (exec (annotate ids) σ').
Proof.
  intros Hc. unfold annotate. rewrite !exec_bind, emit_volume, emit_pressure.
  apply for_each_emit_similar; [apply opb_not_local|].
  apply for_each_emit_similar; [apply opb_not_local|].
  split; [constructor | done].
Qed.

End renaming.

(** ** What one emitter call and one loop of the driver add *)

Section loops.
Implicit Types (σ : process) (g : Graph.t) (ids : list string).

Lemma emit_stdout quantity model model_id σ :
  stdout (exec (emit quantity model model_id) σ) = stdout σ ++ cavity_warning model_id.
Proof.
  rewrite exec_emit. cbn zeta. cbn [stdout].
  set (σ1 := exec (map_to_uberon_cavity (split_head "." model_id)) σ).
  assert (stdout σ1 = stdout σ ++ cavity_warning model_id) as <-.
  { subst σ1. unfold exec. by rewrite map_to_uberon_cavity_eq. }
  rewrite define_eq. by destruct (Graph.subjects _ _ _).
Qed.

Lemma for_each_emit_stdout quantity model ids σ :
  stdout (exec (for_each ids (emit quantity model)) σ)
  = stdout σ ++ concat (cavity_warning <$> ids).
Proof.
  revert σ. induction ids as [|id ids IH]; intros σ.
  - by rewrite exec_for_each_nil, app_nil_r.
  - rewrite exec_for_each_cons, IH, emit_stdout, fmap_cons. simpl.
    by rewrite app_assoc.
Qed.

(** The graph after one emitter call, as a set. *)
Lemma emit_graph c0 quantity model model_id σ :
  run_inv c0 σ →
  let σ' := exec (emit quantity model model_id) σ in
  let variable := term OMEXlib (model +:+ "#" +:+ model_id) in
  ∃ n,
    blood_part_of (rdf_graph σ') (local_node n) (location_of model_id) ∧
    ∀ tr, tr ∈ rdf_graph σ' ↔
          tr ∈ rdf_graph σ ∨
          tr = (local_node n, bq_is, BLOOD_URI) ∨
          tr = (local_node n, bq_isPartOf, location_of model_id) ∨
          tr = (variable, bq_isPropertyOf, local_node n) ∨
          tr = (variable, bq_isVersionOf, quantity).
Proof.
  intros Hinv σ' variable. subst σ'. rewrite exec_emit. cbn zeta.
  destruct (exec_resolve (split_head "." model_id) σ) as [Hg1 Hc1].
  pose proof (resolve_inv c0 (split_head "." model_id) σ Hinv) as Hinv1.
  set (σ1 := exec (map_to_uberon_cavity (split_head "." model_id)) σ) in *.
  rewrite define_eq. fold (location_of model_id). rewrite Hg1, Hc1.
  destruct (Graph.subjects bq_isPartOf (location_of model_id) (rdf_graph σ))
    as [|s rest] eqn:Hq; cbn zeta; cbn [fst snd rdf_graph].
  - exists (_LOCAL_ID_COUNTER σ + 1). split.
    + split; rewrite !elem_of_add; auto.
    + intros tr. rewrite !elem_of_add. fold variable. tauto.
  - assert ((s, bq_isPartOf, location_of model_id) ∈ rdf_graph σ) as Hin.
    { apply elem_of_subjects. rewrite Hq. by left. }
    destruct (inv_partof _ _ Hinv _ _ Hin) as [(n & _ & ->) Hblood].
    exists n. rewrite Hg1. split.
    + split; rewrite !elem_of_add; auto.
    + intros tr. rewrite !elem_of_add. fold variable.
      split; [tauto|]. intros [?|[->|[->|[->| ->]]]]; auto.
Qed.

Lemma annotation_of_mono volumes pressures volumes' pressures' g g' tr :
  volumes ⊆ volumes' → pressures ⊆ pressures' → g ⊆ g' →
  annotation_of volumes pressures g tr → annotation_of volumes' pressures' g' tr.
Proof.
  intros Hv Hp Hg.
  assert (∀ id, id ∈ volumes ++ pressures → id ∈ volumes' ++ pressures') as Hall.
  { intros id. rewrite !elem_of_app. intros [?|?]; auto. }
  assert (∀ n o, blood_part_of g n o → blood_part_of g' n o) as Hbp.
  { intros n o [? ?]. split; by apply Hg. }
  destruct 1; econstructor; eauto.
Qed.

(** One loop of the driver: every identifier of the loop is annotated, and
    what the loop adds are annotations of its identifiers. *)
Lemma loop_graph c0 quantity ids σ :
  run_inv c0 σ →
  let σ' := exec (for_each ids (emit quantity cellml_file)) σ in
  run_inv c0 σ' ∧
  rdf_graph σ ⊆ rdf_graph σ' ∧
  (∀ id, id ∈ ids →
     ∃ n, blood_part_of (rdf_graph σ') (local_node n) (location_of id) ∧
          (variable_uri id, bq_isPropertyOf, local_node n) ∈ rdf_graph σ' ∧
          (variable_uri id, bq_isVersionOf, quantity) ∈ rdf_graph σ') ∧
  (∀ tr, tr ∈ rdf_graph σ' →
     tr ∈ rdf_graph σ ∨
     ∃ id n, id ∈ ids ∧
       blood_part_of (rdf_graph σ') (local_node n) (location_of id) ∧
       (tr = (local_node n, bq_is, BLOOD_URI) ∨
        tr = (local_node n, bq_isPartOf, location_of id) ∨
        tr = (variable_uri id, bq_isPropertyOf, local_node n) ∨
        tr = (variable_uri id, bq_isVersionOf, quantity))).
Proof.
  revert σ. induction ids as [|id ids IH]; intros σ Hinv σ'; subst σ'.
  - rewrite exec_for_each_nil. split_and!; [done | done | |].
    + intros id Hid. by apply not_elem_of_nil in Hid.
    + intros tr Htr. by left.
  - rewrite exec_for_each_cons.
    pose proof (emit_inv c0 quantity cellml_file id σ Hinv) as Hinv1.
    destruct (emit_graph c0 quantity cellml_file id σ Hinv) as (n & Hbp & Hiff).
    cbn zeta in Hbp, Hiff.
    set (σ1 := exec (emit quantity cellml_file id) σ) in *.
    destruct (IH σ1 Hinv1) as (Hinv2 & Hsub & Hall & Honly). cbn zeta in *.
    set (σ2 := exec (for_each ids (emit quantity cellml_file)) σ1) in *.
    assert (∀ m o, blood_part_of (rdf_graph σ1) m o → blood_part_of (rdf_graph σ2) m o)
      as Hlift.
    { intros m o [? ?]. split; by apply Hsub. }
    split_and!.
    + done.
    + intros tr Htr. apply Hsub, Hiff. by left.
    + intros id' [-> | Hid']%elem_of_cons.
      * exists n. split_and!; [by apply Hlift | |]; apply Hsub, Hiff; auto.
      * by apply Hall.
    + intros tr Htr. destruct (Honly tr Htr) as [Htr1 | (id' & n' & Hid' & Hbp' & Hshape)].
      * apply Hiff in Htr1 as [?|Hshape]; [by left|]. right.
        exists id, n. split_and!; [by left | by apply Hlift | done].
      * right. exists id', n'. split_and!; [by right | done | done].
Qed.

End loops.

(** ** The driver's loops *)

Section driver.
Implicit Types (σ : process) (ids : model_ids).

Lemma annotate_run_inv ids σ :
  run_inv (_LOCAL_ID_COUNTER σ) (exec (annotate ids) σ).
Proof.
  unfold annotate. rewrite !exec_bind, emit_volume, emit_pressure.
  apply loop_graph, loop_graph. destruct σ. apply run_inv_fresh.
Qed.

Lemma variable_uri_inj id id' : variable_uri id = variable_uri id' → id = id'.
Proof.
  unfold variable_uri. intros H%term_inj.
  apply (inj (String.app cellml_file)) in H. by apply (inj (String.app "#")) in H.
Qed.

Lemma annotation_of_property volumes pressures g s o :
  annotation_of volumes pressures g (s, bq_isPropertyOf, o) →
  ∃ n id, id ∈ volumes ++ pressures ∧ s = variable_uri id ∧ o = local_node n ∧
          blood_part_of g (local_node n) (location_of id).
Proof.
  intros H. remember (s, bq_isPropertyOf, o) as tr eqn:E.
  destruct H; apply triple_eq_inv in E as (Hs & Hp & Ho);
    try discriminate Hp. subst. eauto 10.
Qed.

Lemma annotate_complete (ids : model_ids) (σ : process) :
  let g := rdf_graph (exec (annotate ids) σ) in
  (∀ id, id ∈ volume_ids ids →
     (variable_uri id, bq_isVersionOf, VOLUME_URI) ∈ g ∧
     ∃ n, (variable_uri id, bq_isPropertyOf, local_node n) ∈ g ∧
          blood_part_of g (local_node n) (location_of id)) ∧
  (∀ id, id ∈ pressure_ids ids →
     (variable_uri id, bq_isVersionOf, PRESSURE_URI) ∈ g ∧
     ∃ n, (variable_uri id, bq_isPropertyOf, local_node n) ∈ g ∧
          blood_part_of g (local_node n) (location_of id)).
Proof.
  intros g. subst g. unfold annotate. rewrite !exec_bind, emit_volume, emit_pressure.
  set (σ0 := exec new_graph σ).
  assert (run_inv (_LOCAL_ID_COUNTER σ) σ0) as H0 by (destruct σ; apply run_inv_fresh).
  destruct (loop_graph _ VOLUME_URI (volume_ids ids) σ0 H0) as (H1 & _ & Hvol & _).
  cbn zeta in *.
  set (σ1 := exec (for_each (volume_ids ids) (emit VOLUME_URI cellml_file)) σ0) in *.
  destruct (loop_graph _ PRESSURE_URI (pressure_ids ids) σ1 H1) as (_ & Hsub & Hpres & _).
  cbn zeta in *. split.
  - intros id Hid. destruct (Hvol id Hid) as (n & [Hb1 Hb2] & Hp & Hv).
    split; [by apply Hsub|]. exists n. split; [by apply Hsub|]. split; by apply Hsub.
  - intros id Hid. destruct (Hpres id Hid) as (n & Hb & Hp & Hv). eauto.
Qed.

Lemma annotate_sound (ids : model_ids) (σ : process) :
  let g := rdf_graph (exec (annotate ids) σ) in
  ∀ tr, tr ∈ g → annotation_of (volume_ids ids) (pressure_ids ids) g tr.
Proof.
  intros g. subst g. unfold annotate. rewrite !exec_bind, emit_volume, emit_pressure.
  set (σ0 := exec new_graph σ).
  assert (run_inv (_LOCAL_ID_COUNTER σ) σ0) as H0 by (destruct σ; apply run_inv_fresh).
  destruct (loop_graph _ VOLUME_URI (volume_ids ids) σ0 H0) as (H1 & _ & _ & Hvol).
  cbn zeta in *.
  set (σ1 := exec (for_each (volume_ids ids) (emit VOLUME_URI cellml_file)) σ0) in *.
  destruct (loop_graph _ PRESSURE_URI (pressure_ids ids) σ1 H1) as (_ & Hsub & _ & Hpres).
  cbn zeta in *.
  set (σ2 := exec (for_each (pressure_ids ids) (emit PRESSURE_URI cellml_file)) σ1) in *.
  intros tr Htr.
  destruct (Hpres tr Htr) as [Htr1 | (id & n & Hid & Hbp & Hshape)].
  - destruct (Hvol tr Htr1) as [Htr0 | (id & n & Hid & [Hb1 Hb2] & Hshape)].
    + by apply not_elem_of_nil in Htr0.
    + assert (id ∈ volume_ids ids ++ pressure_ids ids) as Hall
        by (apply elem_of_app; by left).
      assert (blood_part_of (rdf_graph σ2) (local_node n) (location_of id)) as Hbp
        by (split; by apply Hsub).
      destruct Hshape as [->|[->|[->| ->]]]; by econstructor.
  - assert (id ∈ volume_ids ids ++ pressure_ids ids) as Hall
      by (apply elem_of_app; by right).
    destruct Hshape as [->|[->|[->| ->]]]; by econstructor.
Qed.

End driver.

(** ** Counting the minted nodes *)

Section counting.
#[local] Set Warnings "-clear-no-such-hyp".
Implicit Types (σ : process) (g : Graph.t) (S : gset string).

Lemma size_difference_step (x : string) (X S : gset string) :
  size (({[x]} ∪ X) ∖ S)
  = ((if decide (x ∈ S) then 0 else 1) + size (X ∖ (S ∪ {[x]})))%nat.
Proof.
  destruct (decide (x ∈ S)) as [Hin|Hnew].
  - simpl. f_equal. set_solver.
  - replace (({[x]} ∪ X) ∖ S) with ({[x]} ∪ X ∖ (S ∪ {[x]})).
    + rewrite size_union by set_solver. by rewrite size_singleton.
    + apply set_eq. intros y. destruct (decide (y = x)) as [->|]; set_solver.
Qed.

Lemma size_union_difference (V P : gset string) :
  size (V ∪ P) = (size V + size (P ∖ V))%nat.
Proof.
  replace (V ∪ P) with (V ∪ P ∖ V).
  - apply size_union. set_solver.
  - apply set_eq. intros x. destruct (decide (x ∈ V)); set_solver.
Qed.

(** [S] is the set of locations that have a node in the graph. *)
Lemma emit_counter quantity model model_id σ S :
  (∀ o, o ∈ S ↔ ∃ s, (s, bq_isPartOf, o) ∈ rdf_graph σ) →
  let σ' := exec (emit quantity model model_id) σ in
  _LOCAL_ID_COUNTER σ'
    = _LOCAL_ID_COUNTER σ + (if decide (location_of model_id ∈ S) then 0 else 1) ∧
  (∀ o, o ∈ S ∪ {[ location_of model_id ]} ↔ ∃ s, (s, bq_isPartOf, o) ∈ rdf_graph σ').
Proof.
  intros HS σ'. subst σ'. destruct σ as [g c out]. cbn [rdf_graph _LOCAL_ID_COUNTER] in *.
  destruct (Graph.subjects bq_isPartOf (location_of model_id) g) as [|s rest] eqn:Hq.
  - assert (location_of model_id ∉ S) as Hnew.
    { intros [s Hs]%HS. rewrite subjects_nil in Hq. by apply Hq in Hs. }
    rewrite exec_emit_fresh by done. cbn zeta. cbn [rdf_graph _LOCAL_ID_COUNTER].
    rewrite decide_False by done. split; [done|].
    intros o. rewrite elem_of_union, elem_of_singleton, HS. split.
    + intros [[s Hs] | ->].
      * exists s. rewrite !elem_of_add. auto.
      * eexists. rewrite !elem_of_add. left. left. by right.
    + intros [s Hs]. rewrite !elem_of_add in Hs.
      destruct Hs as [[[[Hs|Hs]|Hs]|Hs]|Hs];
        [by left; exists s | apply triple_eq_inv in Hs as (_ & Hp & Ho) ..];
        try discriminate Hp. right. exact Ho.
  - assert (location_of model_id ∈ S) as Hold.
    { apply HS. exists s. apply elem_of_subjects. rewrite Hq. by left. }
    rewrite (exec_emit_found _ _ _ _ _ _ s rest) by done.
    cbn zeta. cbn [rdf_graph _LOCAL_ID_COUNTER].
    rewrite decide_True by done. split; [lia|].
    intros o. rewrite elem_of_union, elem_of_singleton, HS. split.
    + intros [[s' Hs] | ->].
      * exists s'. rewrite !elem_of_add. auto.
      * apply HS in Hold as [s' Hs]. exists s'. rewrite !elem_of_add. auto.
    + intros [s' Hs]. rewrite !elem_of_add in Hs.
      destruct Hs as [[Hs|Hs]|Hs];
        [by left; exists s' | apply triple_eq_inv in Hs as (_ & Hp & Ho) ..];
        discriminate Hp.
Qed.

Lemma loop_counter quantity ids σ S :
  (∀ o, o ∈ S ↔ ∃ s, (s, bq_isPartOf, o) ∈ rdf_graph σ) →
  let σ' := exec (for_each ids (emit quantity cellml_file)) σ in
  _LOCAL_ID_COUNTER σ'
    = _LOCAL_ID_COUNTER σ + Z.of_nat (size (list_to_set (location_of <$> ids) ∖ S)) ∧
  (∀ o, o ∈ S ∪ list_to_set (location_of <$> ids)
        ↔ ∃ s, (s, bq_isPartOf, o) ∈ rdf_graph σ').
Proof.
  revert σ S. induction ids as [|id ids IH]; intros σ S HS σ'; subst σ'.
  - rewrite exec_for_each_nil. simpl. split.
    + replace (∅ ∖ S) with (∅ : gset string) by (clear; set_solver).
      rewrite size_empty. lia.
    + intros o. rewrite <- HS. clear. set_solver.
  - rewrite exec_for_each_cons.
    destruct (emit_counter quantity cellml_file id σ S HS) as [Hc1 HS1].
    cbn zeta in Hc1, HS1.
    destruct (IH _ _ HS1) as [Hc2 HS2]. cbn zeta in Hc2, HS2.
    rewrite Hc2, Hc1. rewrite fmap_cons, list_to_set_cons. split.
    + rewrite size_difference_step. repeat case_decide; try done; unfold URIRef in *; lia.
    + intros o. rewrite <- HS2. clear. set_solver.
Qed.

End counting.


(** ** Extraction and the table *)

Section extraction.



Transparent cavity_map.

Lemma cavity_map_keys k code :
  cavity_map !! k = Some code →
  (k, code) ∈ [ ("lv", "0016514"); ("rv", "0016509"); ("la", "0016513");
                ("ra", "0016522"); ("pa", "0002012"); ("lung", "0000102");
                ("pulm-vein", "0002016"); ("brain", "0008998");
                ("brain-vein", "2005031"); ("aa", "0001496"); ("celiac", "0001640");
                ("sup-mes", "0001182"); ("stomach", "0000945"); ("spleen", "0036301");
                ("pancreas", "0001264"); ("intestine", "0000160"); ("colon", "0001155");
                ("portal-vein", "0002017"); ("liver", "0006877") ].
Proof. unfold cavity_map. apply elem_of_list_to_map_2. Qed.

Opaque cavity_map.

End extraction.


(** * Properties of the specification *)

(** C1 -- Deduplication invariant.  In a run that starts on an empty graph
    (whatever the counter and the output are by then), after any sequence
    of calls the graph never holds two distinct entities that both are
    blood and part of one location; and the entity that
    [create_local_blood_cavity_definition] returns for a location is the
    one it returns, without touching the state, after any further calls on
    that graph. *)
Theorem deduplication_invariant (c : Z) (out : list string) (calls : list call) :
  let σ := run calls (fresh c out) in
  (∀ n1 n2 location,
     blood_part_of (rdf_graph σ) n1 location →
     blood_part_of (rdf_graph σ) n2 location → n1 = n2) ∧
  (∀ location later,
     let r := create_local_blood_cavity_definition location σ in
     create_local_blood_cavity_definition location (run later r.2)
     = (r.1, run later r.2)).
Proof.
  intros σ. assert (run_inv c σ) as Hinv by apply run_inv_run, run_inv_fresh.
  split.
  - intros n1 n2 location [_ H1] [_ H2]. by eapply inv_one_subject.
  - intros location later r.
    assert (run_inv c r.2) as Hr by by apply define_inv.
    apply define_found with (c0 := c); [by apply run_inv_run|].
    eapply elem_of_prefix; [apply run_grows | apply define_part_of].
Qed.

Lemma deduplication_invariant_witness :
  let σ := run [AnnotateVolume cellml_file "lv.blood.volume";
                AnnotatePressure cellml_file "lv.blood.pressure"] (fresh 1024 []) in
  blood_part_of (rdf_graph σ) (local_node 1025) (term UBERON "0016514") ∧
  local_node 1025 = local_node 1025.
Proof.
  intros σ.
  assert (blood_part_of (rdf_graph σ) (local_node 1025) (term UBERON "0016514")) as H.
  { split; vm_compute; repeat constructor. }
  split; [exact H|].
  exact (proj1 (deduplication_invariant 1024 [] _) _ _ _ H H).
Defined.

(** C5 -- Shape of the lookup.  The rows of the query are exactly the
    subjects with an [isPartOf] edge to the location, whether or not they
    are blood; when there is a row, the function returns the first one (the
    subject of the first such triple of the graph) and leaves the state as
    it is.  A graph whose only triple is [(x, isPartOf, location)] already
    makes it return [x]. *)
Theorem lookup_by_part_of_alone (σ : process) (location : URIRef) :
  (∀ s, s ∈ Graph.subjects bq_isPartOf location (rdf_graph σ)
        ↔ (s, bq_isPartOf, location) ∈ rdf_graph σ) ∧
  (∀ subject rest,
     Graph.subjects bq_isPartOf location (rdf_graph σ) = subject :: rest →
     create_local_blood_cavity_definition location σ = (subject, σ)) ∧
  (∀ g1 g2 subject,
     rdf_graph σ = g1 ++ (subject, bq_isPartOf, location) :: g2 →
     (∀ s, (s, bq_isPartOf, location) ∉ g1) →
     create_local_blood_cavity_definition location σ = (subject, σ)) ∧
  (∀ x,
     let σx := Process [(x, bq_isPartOf, location)]
                       (_LOCAL_ID_COUNTER σ) (stdout σ) in
     (((x, bq_is, BLOOD_URI) ∉ rdf_graph σx) ∧
      create_local_blood_cavity_definition location σx = (x, σx))).
Proof.
  split_and!.
  - intros s. apply elem_of_subjects.
  - intros subject rest Hq. by rewrite define_eq, Hq.
  - intros g1 g2 subject Hg Hg1. rewrite define_eq, Hg.
    change (g1 ++ (subject, bq_isPartOf, location) :: g2)
      with (g1 ++ [(subject, bq_isPartOf, location)] ++ g2).
    rewrite !subjects_app, subjects_singleton_match.
    apply subjects_nil in Hg1. by rewrite Hg1.
  - intros x σx. split.
    + intros [=]%list_elem_of_singleton.
    + by rewrite define_eq; simpl; rewrite subjects_singleton_match.
Qed.

Lemma lookup_by_part_of_alone_witness :
  let location := term UBERON "0016514" in
  let σ := Process [("urn:x", bq_isPropertyOf, "urn:y");
                    ("urn:a", bq_isPartOf, location);
                    ("urn:b", bq_isPartOf, location)] 1024 [] in
  (Graph.subjects bq_isPartOf location (rdf_graph σ) = ["urn:a"; "urn:b"] ∧
   create_local_blood_cavity_definition location σ = ("urn:a", σ)) ∧
  (rdf_graph σ = [("urn:x", bq_isPropertyOf, "urn:y")]
                 ++ ("urn:a", bq_isPartOf, location)
                 :: [("urn:b", bq_isPartOf, location)] ∧
   (∀ s, (s, bq_isPartOf, location) ∉ [("urn:x", bq_isPropertyOf, "urn:y")]) ∧
   create_local_blood_cavity_definition location σ = ("urn:a", σ)).
Proof.
  intros location σ.
  destruct (lookup_by_part_of_alone σ location) as (_ & Hfirst & Hsplit & _).
  assert (Graph.subjects bq_isPartOf location (rdf_graph σ) = ["urn:a"; "urn:b"]) as Hq
    by reflexivity.
  assert (∀ s, (s, bq_isPartOf, location) ∉ [("urn:x", bq_isPropertyOf, "urn:y")]) as Hno
    by (intros s [=]%list_elem_of_singleton).
  split; [split; [exact Hq | exact (Hfirst _ _ Hq)] |].
  split; [reflexivity|]. split; [exact Hno|].
  exact (Hsplit [("urn:x", bq_isPropertyOf, "urn:y")]
                [("urn:b", bq_isPartOf, location)] "urn:a" eq_refl Hno).
Defined.

(** C6 -- Fresh-entity minting.  [_get_local_id] raises the counter by one
    and names the node after the new value; the counter is 1024 at startup
    and no call lowers it.  In a run whose counter started at or above
    1024, when no subject is part of the location the function mints the
    node numbered [counter + 1 > 1024], appends exactly the triples
    [(node, is, blood)] and [(node, isPartOf, location)], and returns the
    node.  Annotating two variables whose cavities resolve to distinct
    locations ties them to two distinct nodes, each with its own pair. *)
Theorem fresh_entity_minting (c : Z) (out : list string) (calls : list call) :
  1024 ≤ c →
  let σ := run calls (fresh c out) in
  (∀ σ0, let r := _get_local_id σ0 in
         _LOCAL_ID_COUNTER r.2 = _LOCAL_ID_COUNTER σ0 + 1 ∧
         r.1 = "local-node-" +:+ pretty (_LOCAL_ID_COUNTER r.2)) ∧
  (_LOCAL_ID_COUNTER startup = 1024 ∧
   ∀ σ0 more, _LOCAL_ID_COUNTER σ0 ≤ _LOCAL_ID_COUNTER (run more σ0)) ∧
  (∀ location,
     Graph.subjects bq_isPartOf location (rdf_graph σ) = [] →
     let n := _LOCAL_ID_COUNTER σ + 1 in
     1024 < n ∧
     create_local_blood_cavity_definition location σ =
       (local_node n,
        Process (rdf_graph σ ++ [(local_node n, bq_is, BLOOD_URI);
                                 (local_node n, bq_isPartOf, location)])
                n (stdout σ))) ∧
  (∀ k1 model1 id1 k2 model2 id2,
     let location1 := cavity_uri_of (split_head "." id1) in
     let location2 := cavity_uri_of (split_head "." id2) in
     location1 ≠ location2 →
     let g' := rdf_graph (exec (annotation k1 model1 id1 ;;;
                                annotation k2 model2 id2) σ) in
     ∃ n1 n2,
       n1 ≠ n2 ∧
       (term OMEXlib (model1 +:+ "#" +:+ id1), bq_isPropertyOf, n1) ∈ g' ∧
       blood_part_of g' n1 location1 ∧
       (term OMEXlib (model2 +:+ "#" +:+ id2), bq_isPropertyOf, n2) ∈ g' ∧
       blood_part_of g' n2 location2).
Proof.
  intros Hc σ.
  assert (run_inv c σ) as Hinv by apply run_inv_run, run_inv_fresh.
  split_and!.
  - intros σ0. by simpl.
  - done.
  - intros σ0 more. apply run_grows.
  - intros location Hq n. pose proof (inv_counter _ _ Hinv). split; [subst n; lia|].
    rewrite define_eq, Hq. simpl. fold n. f_equal. f_equal.
    assert ((local_node n, bq_is, BLOOD_URI) ∉ rdf_graph σ) as Hnew.
    { intros Hin. destruct (inv_is _ _ Hinv _ _ Hin) as [(m & Hm & Heq) _].
      apply local_node_inj in Heq. subst n. lia. }
    rewrite (add_absent _ _ Hnew), add_absent, <- app_assoc; [done|].
    rewrite elem_of_app, list_elem_of_singleton. intros [Hin | [=]].
    rewrite subjects_nil in Hq. by apply Hq in Hin.
  - intros k1 model1 id1 k2 model2 id2 location1 location2 Hne g'.
    assert (g' = rdf_graph (exec (emit (quantity_term k2) model2 id2)
                              (exec (emit (quantity_term k1) model1 id1) σ))) as Hg'.
    { subst g'. by rewrite exec_bind, !annotation_emit. }
    clearbody g'. subst g'.
    set (σ1 := exec (emit (quantity_term k1) model1 id1) σ).
    set (σ2 := exec (emit (quantity_term k2) model2 id2) σ1).
    assert (run_inv c σ2) as Hinv2 by by do 2 apply emit_inv.
    assert (rdf_graph σ1 `prefix_of` rdf_graph σ2) as Hpre by apply emit_grows.
    destruct (emit_members (quantity_term k1) model1 id1 σ) as (n1 & Hp1 & Ho1 & _).
    destruct (emit_members (quantity_term k2) model2 id2 σ1) as (n2 & Hp2 & Ho2 & _).
    fold σ1 in Hp1, Ho1. fold σ2 in Hp2, Ho2.
    apply (elem_of_prefix _ _ _ Hpre) in Hp1, Ho1.
    exists n1, n2. split_and!.
    + intros ->. apply Hne. exact (inv_one_location _ _ Hinv2 _ _ _ Hp1 Hp2).
    + exact Ho1.
    + split; [|exact Hp1]. by eapply (inv_partof _ _ Hinv2).
    + exact Ho2.
    + split; [|exact Hp2]. by eapply (inv_partof _ _ Hinv2).
Qed.

Lemma fresh_entity_minting_witness :
  let σ := run [] (fresh 1024 []) in
  let lv := term UBERON "0016514" in
  (1024 ≤ 1024 ∧
   Graph.subjects bq_isPartOf lv (rdf_graph σ) = [] ∧
   create_local_blood_cavity_definition lv σ =
     (local_node 1025,
      Process [(local_node 1025, bq_is, BLOOD_URI);
               (local_node 1025, bq_isPartOf, lv)] 1025 [])) ∧
  (cavity_uri_of (split_head "." "lv.blood.volume")
     ≠ cavity_uri_of (split_head "." "rv.blood.pressure") ∧
   ∃ n1 n2, n1 ≠ n2 ∧
     blood_part_of
       (rdf_graph (exec (annotation Volume cellml_file "lv.blood.volume" ;;;
                         annotation Pressure cellml_file "rv.blood.pressure") σ))
       n1 lv ∧
     blood_part_of
       (rdf_graph (exec (annotation Volume cellml_file "lv.blood.volume" ;;;
                         annotation Pressure cellml_file "rv.blood.pressure") σ))
       n2 (term UBERON "0016509")).
Proof.
  intros σ lv.
  assert (1024 ≤ 1024) as Hc by lia.
  destruct (fresh_entity_minting 1024 [] [] Hc) as (_ & _ & Hmint & Htwo).
  assert (Graph.subjects bq_isPartOf lv (rdf_graph σ) = []) as Hq by reflexivity.
  assert (cavity_uri_of (split_head "." "lv.blood.volume")
            ≠ cavity_uri_of (split_head "." "rv.blood.pressure")) as Hne
    by (vm_compute; discriminate).
  split.
  - split; [exact Hc|]. split; [exact Hq|]. exact (proj2 (Hmint lv Hq)).
  - split; [exact Hne|].
    destruct (Htwo Volume cellml_file "lv.blood.volume"
                Pressure cellml_file "rv.blood.pressure" Hne)
      as (n1 & n2 & Hn & _ & H1 & _ & H2).
    exists n1, n2. split; [exact Hn|]. split; [exact H1 | exact H2].
Defined.

(** C10 -- The lookup by [isPartOf] alone is harmless in a run.  In a run
    that starts on an empty graph every subject of an [isPartOf] triple is a
    local node that also carries [is] blood, a subject that is not a local
    node has [isPropertyOf] and [isVersionOf] triples only, and so the query
    of the function has the same rows as the stricter query for subjects
    that are blood and part of the location: the function and its stricter
    variant return the same node and the same state. *)
Theorem lookup_agrees_with_strict (c : Z) (out : list string) (calls : list call) :
  let σ := run calls (fresh c out) in
  (∀ s o, (s, bq_isPartOf, o) ∈ rdf_graph σ →
          isLocal s ∧ (s, bq_is, BLOOD_URI) ∈ rdf_graph σ) ∧
  (∀ tr, tr ∈ rdf_graph σ → ¬ isLocal tr.1.1 →
         tr.1.2 = bq_isPropertyOf ∨ tr.1.2 = bq_isVersionOf) ∧
  (∀ location,
     strict_subjects location (rdf_graph σ)
     = Graph.subjects bq_isPartOf location (rdf_graph σ)) ∧
  (∀ location,
     create_local_blood_cavity_definition_strict location σ
     = create_local_blood_cavity_definition location σ).
Proof.
  intros σ. assert (run_inv c σ) as Hinv by apply run_inv_run, run_inv_fresh.
  assert (∀ location, strict_subjects location (rdf_graph σ)
                      = Graph.subjects bq_isPartOf location (rdf_graph σ)) as Hsame.
  { intros location. unfold strict_subjects.
    apply filter_all, Forall_forall. intros s Hs%elem_of_subjects.
    by apply (inv_partof _ _ Hinv) in Hs as [_ ?]. }
  split_and!.
  - intros s o Hin. destruct (inv_partof _ _ Hinv _ _ Hin) as [(n & _ & ->) ?].
    split; [by exists n | done].
  - intros [[s p] o] Hin Hloc. simpl in *.
    pose proof (inv_vocabulary _ _ Hinv _ Hin) as Hp. simpl in Hp.
    rewrite !elem_of_cons in Hp. destruct Hp as [-> | [-> | [-> | [-> | Hp]]]].
    + destruct (inv_is _ _ Hinv _ _ Hin) as [(n & _ & ->) _].
      exfalso. apply Hloc. by exists n.
    + destruct (inv_partof _ _ Hinv _ _ Hin) as [(n & _ & ->) _].
      exfalso. apply Hloc. by exists n.
    + by left.
    + by right.
    + by apply not_elem_of_nil in Hp.
  - exact Hsame.
  - intros location. unfold create_local_blood_cavity_definition_strict.
    rewrite Hsame. unfold create_local_blood_cavity_definition, bind, graph_query.
    by destruct (Graph.subjects _ _ _).
Qed.

Lemma lookup_agrees_with_strict_witness :
  let σ := run [AnnotateVolume cellml_file "lv.blood.volume"] (fresh 1024 []) in
  let lv := term UBERON "0016514" in
  let var := term OMEXlib (cellml_file +:+ "#" +:+ "lv.blood.volume") in
  ((local_node 1025, bq_isPartOf, lv) ∈ rdf_graph σ ∧
   isLocal (local_node 1025) ∧ (local_node 1025, bq_is, BLOOD_URI) ∈ rdf_graph σ) ∧
  ((var, bq_isVersionOf, VOLUME_URI) ∈ rdf_graph σ ∧
   ¬ isLocal var ∧
   (bq_isVersionOf = bq_isPropertyOf ∨ bq_isVersionOf = bq_isVersionOf)).
Proof.
  intros σ lv var.
  destruct (lookup_agrees_with_strict 1024 []
              [AnnotateVolume cellml_file "lv.blood.volume"]) as (Hpart & Hvar & _ & _).
  assert ((local_node 1025, bq_isPartOf, lv) ∈ rdf_graph σ) as H1
    by (vm_compute; repeat constructor).
  assert ((var, bq_isVersionOf, VOLUME_URI) ∈ rdf_graph σ) as H2
    by (vm_compute; repeat constructor).
  assert (¬ isLocal var) as H3 by apply cellml_uri_not_local.
  split.
  - split; [exact H1 | exact (Hpart _ _ H1)].
  - split; [exact H2|]. split; [exact H3 | exact (Hvar _ H2 H3)].
Defined.

(** C4 -- The cavity resolver is total.  For each of the 19 abbreviations
    of the table it returns the UBERON term written next to that key and
    prints nothing; the table has no other key; for every other
    abbreviation it prints one warning and returns UBERON 0001062. *)
Theorem cavity_resolver_total (σ : process) :
  Forall (λ entry : string * string,
            map_to_uberon_cavity entry.1 σ
            = (entry.2, Process (rdf_graph σ) (_LOCAL_ID_COUNTER σ) (stdout σ)))
    [ ("lv", "http://purl.obolibrary.org/obo/UBERON_0016514");
      ("rv", "http://purl.obolibrary.org/obo/UBERON_0016509");
      ("la", "http://purl.obolibrary.org/obo/UBERON_0016513");
      ("ra", "http://purl.obolibrary.org/obo/UBERON_0016522");
      ("pa", "http://purl.obolibrary.org/obo/UBERON_0002012");
      ("lung", "http://purl.obolibrary.org/obo/UBERON_0000102");
      ("pulm-vein", "http://purl.obolibrary.org/obo/UBERON_0002016");
      ("brain", "http://purl.obolibrary.org/obo/UBERON_0008998");
      ("brain-vein", "http://purl.obolibrary.org/obo/UBERON_2005031");
      ("aa", "http://purl.obolibrary.org/obo/UBERON_0001496");
      ("celiac", "http://purl.obolibrary.org/obo/UBERON_0001640");
      ("sup-mes", "http://purl.obolibrary.org/obo/UBERON_0001182");
      ("stomach", "http://purl.obolibrary.org/obo/UBERON_0000945");
      ("spleen", "http://purl.obolibrary.org/obo/UBERON_0036301");
      ("pancreas", "http://purl.obolibrary.org/obo/UBERON_0001264");
      ("intestine", "http://purl.obolibrary.org/obo/UBERON_0000160");
      ("colon", "http://purl.obolibrary.org/obo/UBERON_0001155");
      ("portal-vein", "http://purl.obolibrary.org/obo/UBERON_0002017");
      ("liver", "http://purl.obolibrary.org/obo/UBERON_0006877") ] ∧
  size cavity_map = 19%nat ∧
  (∀ cavity_abbr,
     cavity_map !! cavity_abbr = None →
     map_to_uberon_cavity cavity_abbr σ
     = ("http://purl.obolibrary.org/obo/UBERON_0001062",
        Process (rdf_graph σ) (_LOCAL_ID_COUNTER σ)
          (stdout σ ++ ["Unknown cavity abbreviation: " +:+ cavity_abbr]))) ∧
  (∀ cavity_abbr, ∃ uri σ', map_to_uberon_cavity cavity_abbr σ = (uri, σ')).
Proof.
  split_and!.
  - repeat (apply Forall_cons; split;
      [rewrite map_to_uberon_cavity_eq; simpl fst; simpl snd;
       match goal with
       | |- context [cavity_map !! ?k] =>
           let v := eval vm_compute in (cavity_map !! k) in
           change (cavity_map !! k) with v
       end; cbn [default]; by rewrite ?app_nil_r |]).
    apply Forall_nil_2.
  - by vm_compute.
  - intros cavity_abbr Hnone. rewrite map_to_uberon_cavity_eq.
    unfold cavity_uri_of. by rewrite Hnone.
  - intros cavity_abbr. rewrite map_to_uberon_cavity_eq. by eexists _, _.
Qed.

Lemma cavity_resolver_total_witness :
  cavity_map !! "unknown-cavity" = None ∧
  map_to_uberon_cavity "unknown-cavity" startup
  = ("http://purl.obolibrary.org/obo/UBERON_0001062",
     Process [] 1024 ["Unknown cavity abbreviation: unknown-cavity"]).
Proof.
  assert (cavity_map !! "unknown-cavity" = None) as H by (by vm_compute).
  split; [exact H|].
  exact (proj1 (proj2 (proj2 (cavity_resolver_total startup))) "unknown-cavity" H).
Defined.

(** C3 -- Classification partition.  With [attributes] the values that
    [get_model_ids] extracts, in document order: each bucket is the
    sub-list of the values with its suffix, so a value ending in
    [.blood.volume] is in the volume bucket and in no other (likewise for
    pressure and flow); a value with none of the suffixes is in no bucket;
    the lines printed are one [Unknown ID] line per dropped value, in order,
    so the number of lines for a dropped value is the number of times it
    was extracted; nothing else of the state changes. *)
Theorem classification_partition (root : element) (σ : process) :
  let attributes := collect_attributes root in
  let r := get_model_ids root σ in
  (volume_ids r.1 = filter (λ v, endswith v ".blood.volume" = true) attributes ∧
   pressure_ids r.1 = filter (λ v, endswith v ".blood.pressure" = true) attributes ∧
   flow_ids r.1 = filter (λ v, endswith v ".blood.flow" = true) attributes) ∧
  (∀ v, v ∈ attributes → endswith v ".blood.volume" = true →
        v ∈ volume_ids r.1 ∧ (v ∉ pressure_ids r.1) ∧ (v ∉ flow_ids r.1)) ∧
  (∀ v, v ∈ attributes → endswith v ".blood.pressure" = true →
        (v ∉ volume_ids r.1) ∧ v ∈ pressure_ids r.1 ∧ (v ∉ flow_ids r.1)) ∧
  (∀ v, v ∈ attributes → endswith v ".blood.flow" = true →
        (v ∉ volume_ids r.1) ∧ (v ∉ pressure_ids r.1) ∧ v ∈ flow_ids r.1) ∧
  (∀ v, v ∈ attributes → unrecognised v = true →
        ((v ∉ volume_ids r.1) ∧ (v ∉ pressure_ids r.1) ∧ (v ∉ flow_ids r.1)) ∧
        ∃ printed,
          stdout r.2 = stdout σ ++ printed ∧
          length (filter (λ line, line = unknown_id_line v) printed)
          = length (filter (λ a, a = v) attributes)) ∧
  stdout r.2
    = stdout σ ++ (unknown_id_line <$> filter (λ v, unrecognised v = true) attributes) ∧
  rdf_graph r.2 = rdf_graph σ ∧
  _LOCAL_ID_COUNTER r.2 = _LOCAL_ID_COUNTER σ.
Proof.
  intros attributes r. subst r. unfold get_model_ids. fold attributes.
  rewrite classify_all_eq. simpl.
  assert (∀ v (P : string → bool), v ∈ attributes → P v = true →
            v ∈ filter (λ a, P a = true) attributes) as Hin.
  { intros v P ? ?. by apply list_elem_of_filter. }
  assert (∀ v (P : string → bool), P v = false →
            v ∉ filter (λ a, P a = true) attributes) as Hout.
  { intros v P HP [HP' _]%list_elem_of_filter. congruence. }
  split_and!; try done.
  - intros v Hv E. destruct (suffixes_exclusive v) as (H & _ & _).
    destruct (H E). split_and!; [by apply (Hin v (λ a, endswith a _)) | |];
      by apply (Hout v (λ a, endswith a _)).
  - intros v Hv E. destruct (suffixes_exclusive v) as (_ & H & _).
    destruct (H E). split_and!; [| by apply (Hin v (λ a, endswith a _)) |];
      by apply (Hout v (λ a, endswith a _)).
  - intros v Hv E. destruct (suffixes_exclusive v) as (_ & _ & H).
    destruct (H E). split_and!; [| | by apply (Hin v (λ a, endswith a _))];
      by apply (Hout v (λ a, endswith a _)).
  - intros v Hv Hu. pose proof Hu as Hu'. unfold unrecognised in Hu'.
    apply andb_true_iff in Hu' as [[E1 E2]%andb_true_iff E3].
    apply negb_true_iff in E1, E2, E3. split.
    + split_and!; by apply (Hout v (λ a, endswith a _)).
    + eexists. split; [done|]. rewrite count_unknown_lines. f_equal.
      apply list_filter_iff. intros a. split; [by intros [? _] | by intros ->].
Qed.

Lemma classification_partition_witness :
  let root :=
    Element "model" ∅
      [ Element "variable" {[ qualified_name := "lv.blood.volume" ]} [];
        Element "variable" {[ qualified_name := "lv.blood.pressure" ]} [];
        Element "variable" {[ "name" := "x" ]} [];
        Element "component" {[ qualified_name := "aorta.flow" ]}
          [ Element "variable" {[ qualified_name := "pa.blood.flow" ]} [];
            Element "variable" {[ qualified_name := "aorta.flow" ]} [] ] ] in
  let r := get_model_ids root startup in
  collect_attributes root
    = ["lv.blood.volume"; "lv.blood.pressure"; "aorta.flow"; "pa.blood.flow"; "aorta.flow"] ∧
  ("lv.blood.volume" ∈ volume_ids r.1 ∧ ("lv.blood.volume" ∉ pressure_ids r.1)
   ∧ ("lv.blood.volume" ∉ flow_ids r.1)) ∧
  (("lv.blood.pressure" ∉ volume_ids r.1) ∧ "lv.blood.pressure" ∈ pressure_ids r.1
   ∧ ("lv.blood.pressure" ∉ flow_ids r.1)) ∧
  (("pa.blood.flow" ∉ volume_ids r.1) ∧ ("pa.blood.flow" ∉ pressure_ids r.1)
   ∧ "pa.blood.flow" ∈ flow_ids r.1) ∧
  (("aorta.flow" ∉ volume_ids r.1) ∧ ("aorta.flow" ∉ pressure_ids r.1)
   ∧ ("aorta.flow" ∉ flow_ids r.1)) ∧
  stdout r.2 = ["Unknown ID: aorta.flow"; "Unknown ID: aorta.flow"].
Proof.
  intros root r.
  destruct (classification_partition root startup) as (_ & Hv & Hp & Hf & Hu & Hout & _).
  assert (collect_attributes root
          = ["lv.blood.volume"; "lv.blood.pressure"; "aorta.flow"; "pa.blood.flow";
             "aorta.flow"]) as Hattrs by (by vm_compute).
  assert (∀ v, v ∈ ["lv.blood.volume"; "lv.blood.pressure"; "aorta.flow";
                    "pa.blood.flow"; "aorta.flow"] → v ∈ collect_attributes root) as Hin
    by (by rewrite Hattrs).
  split; [exact Hattrs|].
  split; [apply Hv; [apply Hin; repeat constructor | reflexivity]|].
  split; [apply Hp; [apply Hin; repeat constructor | reflexivity]|].
  split; [apply Hf; [apply Hin; repeat constructor | reflexivity]|].
  split; [apply Hu; [apply Hin; repeat constructor | reflexivity]|].
  etrans; [exact Hout|]. by vm_compute.
Defined.

(** C7 -- Contract of the annotation emitters.  The variable URI is the
    OMEX base followed by the model path, [#] and the raw identifier.  With
    [r] the node and the state that the deduplicator leaves for the cavity
    of the identifier, the graph after the emitter holds the triples of
    that state and the two triples [(variable, isPropertyOf, node)] and
    [(variable, isVersionOf, term)], nothing else; when neither is there yet
    the two are appended in that order.  The term is OPB_00154 for a volume
    and OPB_00509 for a pressure.  Counter and output are the
    deduplicator's. *)
Theorem emitter_contract (k : kind) (model model_id : string) (σ : process) :
  let variable := term OMEXlib (model +:+ "#" +:+ model_id) in
  let cavity := split_head "." model_id in
  let r := create_local_blood_cavity_definition
             (eval (map_to_uberon_cavity cavity) σ)
             (exec (map_to_uberon_cavity cavity) σ) in
  let σ' := exec (annotation k model model_id) σ in
  let property_of := (variable, bq_isPropertyOf, r.1) in
  let version_of := (variable, bq_isVersionOf, quantity_term k) in
  variable = "http://omex-library.org/" +:+ model +:+ "#" +:+ model_id ∧
  quantity_term Volume = "http://bhi.washington.edu/OPB#OPB_00154" ∧
  quantity_term Pressure = "http://bhi.washington.edu/OPB#OPB_00509" ∧
  (∀ tr, tr ∈ rdf_graph σ' ↔
         tr ∈ rdf_graph r.2 ∨ tr = property_of ∨ tr = version_of) ∧
  (property_of ∉ rdf_graph r.2 → version_of ∉ rdf_graph r.2 →
   rdf_graph σ' = rdf_graph r.2 ++ [property_of; version_of]) ∧
  rdf_graph r.2 `prefix_of` rdf_graph σ' ∧
  _LOCAL_ID_COUNTER σ' = _LOCAL_ID_COUNTER r.2 ∧
  stdout σ' = stdout r.2.
Proof.
  intros variable cavity.
  assert (eval (map_to_uberon_cavity cavity) σ = cavity_uri_of cavity) as ->.
  { unfold eval. by rewrite map_to_uberon_cavity_eq. }
  intros r σ' property_of version_of.
  assert (σ' = Process (Graph.add version_of (Graph.add property_of (rdf_graph r.2)))
                       (_LOCAL_ID_COUNTER r.2) (stdout r.2)) as ->.
  { subst σ'. by rewrite annotation_emit, exec_emit. }
  simpl. split_and!; try done.
  - intros tr. rewrite !elem_of_add. tauto.
  - intros H1 H2. rewrite (add_absent property_of) by done.
    rewrite add_absent.
    + by rewrite <- app_assoc.
    + rewrite elem_of_app, list_elem_of_singleton. by intros [? | [=]].
  - etrans; apply add_prefix.
Qed.

Lemma emitter_contract_witness :
  let variable := term OMEXlib (cellml_file +:+ "#" +:+ "lv.blood.volume") in
  let r := create_local_blood_cavity_definition
             (eval (map_to_uberon_cavity "lv") startup)
             (exec (map_to_uberon_cavity "lv") startup) in
  ((variable, bq_isPropertyOf, r.1) ∉ rdf_graph r.2) ∧
  ((variable, bq_isVersionOf, quantity_term Volume) ∉ rdf_graph r.2) ∧
  rdf_graph (exec (annotation Volume cellml_file "lv.blood.volume") startup)
  = rdf_graph r.2 ++ [(variable, bq_isPropertyOf, r.1);
                      (variable, bq_isVersionOf, quantity_term Volume)].
Proof.
  intros variable r.
  assert ((variable, bq_isPropertyOf, r.1) ∉ rdf_graph r.2) as H1.
  { apply (bool_decide_unpack _). by vm_compute. }
  assert ((variable, bq_isVersionOf, quantity_term Volume) ∉ rdf_graph r.2) as H2.
  { apply (bool_decide_unpack _). by vm_compute. }
  split; [exact H1|]. split; [exact H2|].
  destruct (emitter_contract Volume cellml_file "lv.blood.volume" startup)
    as (_ & _ & _ & _ & Happ & _).
  exact (Happ H1 H2).
Defined.

(** C9 -- Annotation is idempotent.  A second call of either emitter with
    the same model and identifier leaves the graph (and the counter) as the
    first call left them: the deduplicator finds the node again and both
    triples are already there. *)
Theorem annotation_idempotent (k : kind) (model model_id : string) (σ : process) :
  let σ1 := exec (annotation k model model_id) σ in
  let σ2 := exec (annotation k model model_id) σ1 in
  rdf_graph σ2 = rdf_graph σ1 ∧
  _LOCAL_ID_COUNTER σ2 = _LOCAL_ID_COUNTER σ1 ∧
  rdf_graph (exec (create_blood_volume_annotation model model_id)
               (exec (create_blood_volume_annotation model model_id) σ))
  = rdf_graph (exec (create_blood_volume_annotation model model_id) σ) ∧
  rdf_graph (exec (create_blood_pressure_annotation model model_id)
               (exec (create_blood_pressure_annotation model model_id) σ))
  = rdf_graph (exec (create_blood_pressure_annotation model model_id) σ).
Proof.
  intros σ1 σ2. subst σ1 σ2. rewrite annotation_emit, emit_volume, emit_pressure.
  split_and!; apply emit_again.
Qed.

(** C2 -- End-to-end example.  For a document whose identifiers are, in
    order, [lv.blood.volume], [lv.blood.pressure] and
    [unknown-cavity.blood.volume], the driver (from any process state; it
    creates the graph itself) exits with 0 and leaves exactly ten triples:
    one local node for UBERON 0016514 that both [lv] variables are a
    property of, [isVersionOf] OPB_00154 for the two volumes and OPB_00509
    for the pressure, one more local node, part of the fallback term UBERON
    0001062, for the unknown cavity, and one warning line. *)
Theorem end_to_end_example (root : element) (σ0 : process) :
  collect_attributes root
    = ["lv.blood.volume"; "lv.blood.pressure"; "unknown-cavity.blood.volume"] →
  let c := _LOCAL_ID_COUNTER σ0 in
  let lv := local_node (c + 1) in
  let other := local_node (c + 2) in
  let variable id := term OMEXlib (cellml_file +:+ "#" +:+ id) in
  lv ≠ other ∧
  main (Some root) σ0 =
  (0, Process
        [ (lv, bq_is, BLOOD_URI);
          (lv, bq_isPartOf, term UBERON "0016514");
          (variable "lv.blood.volume", bq_isPropertyOf, lv);
          (variable "lv.blood.volume", bq_isVersionOf, VOLUME_URI);
          (other, bq_is, BLOOD_URI);
          (other, bq_isPartOf, term UBERON "0001062");
          (variable "unknown-cavity.blood.volume", bq_isPropertyOf, other);
          (variable "unknown-cavity.blood.volume", bq_isVersionOf, VOLUME_URI);
          (variable "lv.blood.pressure", bq_isPropertyOf, lv);
          (variable "lv.blood.pressure", bq_isVersionOf, PRESSURE_URI) ]
        (c + 2)
        (stdout σ0 ++ ["Unknown cavity abbreviation: unknown-cavity"])).
Proof.
  intros Hattrs c lv other variable.
  split; [apply local_node_ne; lia|]. subst lv other variable.
  unfold main, bind, get_model_ids. rewrite Hattrs, classify_all_eq.
  change (filter _ _) with ["lv.blood.volume"; "unknown-cavity.blood.volume"] at 1.
  change (filter _ _) with ["lv.blood.pressure"] at 1.
  change (filter _ _) with (@nil string) at 1.
  change (filter _ _) with (@nil string) at 1.
  unfold annotate, bind, new_graph, ret.
  cbn [rdf_graph _LOCAL_ID_COUNTER stdout volume_ids pressure_ids].
  fold c. rewrite !for_each_eq. cbn [app fmap list_fmap]. rewrite app_nil_r. f_equal.
  rewrite !exec_for_each_cons, !exec_for_each_nil, emit_volume, emit_pressure.
  assert (cavity_uri_of "lv" = term UBERON "0016514") as Hlv by (by vm_compute).
  assert (cavity_uri_of "unknown-cavity" = term UBERON "0001062") as Hunk
    by (by vm_compute).
  assert (cavity_map !! "lv" = Some "0016514") as Hlv' by (by vm_compute).
  assert (cavity_map !! "unknown-cavity" = None) as Hunk' by (by vm_compute).
  (* lv.blood.volume *)
  rewrite exec_emit_fresh by reflexivity.
  change (split_head "." "lv.blood.volume") with "lv".
  rewrite Hlv, Hlv', app_nil_r. cbn zeta.
  unfold Graph.empty. do 4 step_add.
  (* unknown-cavity.blood.volume *)
  change (split_head "." "unknown-cavity.blood.volume") with "unknown-cavity".
  rewrite exec_emit_fresh;
    change (split_head "." "unknown-cavity.blood.volume") with "unknown-cavity";
    rewrite Hunk; [|by eval_subjects].
  rewrite Hunk'. cbn zeta.
  replace (c + 1 + 1) with (c + 2) by lia.
  do 4 step_add.
  (* lv.blood.pressure *)
  rewrite (exec_emit_found _ _ _ _ _ _ (local_node (c + 1)) []);
    change (split_head "." "lv.blood.pressure") with "lv";
    rewrite ?Hlv; [|by eval_subjects].
  rewrite Hlv', app_nil_r. cbn zeta.
  do 2 step_add.
  reflexivity.
Qed.

Lemma end_to_end_example_witness :
  let root :=
    Element "model" ∅
      [ Element "variable" {[ qualified_name := "lv.blood.volume" ]} [];
        Element "variable" {[ qualified_name := "lv.blood.pressure" ]} [];
        Element "variable" {[ qualified_name := "unknown-cavity.blood.volume" ]} [] ] in
  collect_attributes root
    = ["lv.blood.volume"; "lv.blood.pressure"; "unknown-cavity.blood.volume"] ∧
  rdf_graph (exec (main (Some root)) startup) =
    [ (local_node 1025, bq_is, BLOOD_URI);
      (local_node 1025, bq_isPartOf, term UBERON "0016514");
      (term OMEXlib "models/cvs-model.cellml#lv.blood.volume",
       bq_isPropertyOf, local_node 1025);
      (term OMEXlib "models/cvs-model.cellml#lv.blood.volume",
       bq_isVersionOf, VOLUME_URI);
      (local_node 1026, bq_is, BLOOD_URI);
      (local_node 1026, bq_isPartOf, term UBERON "0001062");
      (term OMEXlib "models/cvs-model.cellml#unknown-cavity.blood.volume",
       bq_isPropertyOf, local_node 1026);
      (term OMEXlib "models/cvs-model.cellml#unknown-cavity.blood.volume",
       bq_isVersionOf, VOLUME_URI);
      (term OMEXlib "models/cvs-model.cellml#lv.blood.pressure",
       bq_isPropertyOf, local_node 1025);
      (term OMEXlib "models/cvs-model.cellml#lv.blood.pressure",
       bq_isVersionOf, PRESSURE_URI) ] ∧
  stdout (exec (main (Some root)) startup)
    = ["Unknown cavity abbreviation: unknown-cavity"].
Proof.
  intros root.
  assert (collect_attributes root
          = ["lv.blood.volume"; "lv.blood.pressure"; "unknown-cavity.blood.volume"])
    as Hattrs by (by vm_compute).
  split; [exact Hattrs|].
  unfold exec. rewrite (proj2 (end_to_end_example root startup Hattrs)).
  split; reflexivity.
Defined.

(** C8 -- Run determinism.  Two runs of the driver's loops on the same
    identifier lists, from any two process states (whatever their counters,
    graphs and output), leave graphs that agree triple by triple up to
    renumbering the local nodes by the difference of the two counters:
    predicates are equal, a URI that is not a local node is the same on both
    sides, and local node [n] on one side is local node [n + d] on the
    other.  The same holds for the driver on the same document, and in
    particular for a second run in the process that the first run left,
    with its counter not reset. *)
Theorem run_determinism (σ σ' : process) :
  let d := _LOCAL_ID_COUNTER σ' - _LOCAL_ID_COUNTER σ in
  Inj (=) (=) (shift d) ∧
  (∀ ids, graph_renamed (shift d)
            (rdf_graph (exec (annotate ids) σ))
            (rdf_graph (exec (annotate ids) σ'))) ∧
  (∀ root, graph_renamed (shift d)
             (rdf_graph (exec (main (Some root)) σ))
             (rdf_graph (exec (main (Some root)) σ'))) ∧
  (∀ root,
     let σ1 := exec (main (Some root)) σ in
     let σ2 := exec (main (Some root)) σ1 in
     graph_renamed (shift (_LOCAL_ID_COUNTER σ1 - _LOCAL_ID_COUNTER σ))
       (rdf_graph σ1) (rdf_graph σ2)).
Proof.
  intros d.
  assert (∀ root τ τ',
            graph_renamed (shift (_LOCAL_ID_COUNTER τ' - _LOCAL_ID_COUNTER τ))
              (rdf_graph (exec (main (Some root)) τ))
              (rdf_graph (exec (main (Some root)) τ'))) as Hmain.
  { intros root τ τ'. unfold main. rewrite !exec_bind, !exec_ret, !eval_get_model_ids.
    apply annotate_similar.
    destruct (exec_get_model_ids root τ) as [_ ->].
    destruct (exec_get_model_ids root τ') as [_ ->]. lia. }
  split_and!.
  - apply shift_inj.
  - intros ids. apply annotate_similar. subst d. lia.
  - intros root. apply Hmain.
  - intros root σ1 σ2. apply Hmain.
Qed.

(** * Further properties of the driver *)

(** X1 -- Every volume and every pressure identifier handed to the driver's
    loops ends up annotated: its variable URI has the [isVersionOf] triple
    of its kind and an [isPropertyOf] triple to a local node that is blood
    and part of the location its cavity resolves to. *)
Theorem every_variable_annotated (ids : model_ids) (σ : process) :
  let g := rdf_graph (exec (annotate ids) σ) in
  (∀ id, id ∈ volume_ids ids →
     (variable_uri id, bq_isVersionOf, VOLUME_URI) ∈ g ∧
     ∃ n, (variable_uri id, bq_isPropertyOf, local_node n) ∈ g ∧
          blood_part_of g (local_node n) (location_of id)) ∧
  (∀ id, id ∈ pressure_ids ids →
     (variable_uri id, bq_isVersionOf, PRESSURE_URI) ∈ g ∧
     ∃ n, (variable_uri id, bq_isPropertyOf, local_node n) ∈ g ∧
          blood_part_of g (local_node n) (location_of id)).
Proof. apply annotate_complete. Qed.

Lemma every_variable_annotated_witness :
  let ids := ModelIds ["lv.blood.volume"] ["aa.blood.pressure"] ["x.blood.flow"] in
  let g := rdf_graph (exec (annotate ids) startup) in
  ("lv.blood.volume" ∈ volume_ids ids ∧
   (variable_uri "lv.blood.volume", bq_isVersionOf, VOLUME_URI) ∈ g) ∧
  ("aa.blood.pressure" ∈ pressure_ids ids ∧
   (variable_uri "aa.blood.pressure", bq_isVersionOf, PRESSURE_URI) ∈ g).
Proof.
  intros ids g.
  destruct (every_variable_annotated ids startup) as [Hv Hp].
  assert ("lv.blood.volume" ∈ volume_ids ids) as H1 by (by left).
  assert ("aa.blood.pressure" ∈ pressure_ids ids) as H2 by (by left).
  split; (split; [done|]).
  - exact (proj1 (Hv _ H1)).
  - exact (proj1 (Hp _ H2)).
Defined.

(** X2 -- The driver's loops emit nothing else: every triple of the graph
    they leave is the [is] / [isPartOf] pair of a local node for the
    location of one of the identifiers, the [isPropertyOf] tie of one of
    the variables to such a node, or the [isVersionOf] triple of a volume
    (OPB_00154) or of a pressure (OPB_00509) identifier. *)
Theorem only_annotations_emitted (ids : model_ids) (σ : process) :
  let g := rdf_graph (exec (annotate ids) σ) in
  ∀ tr, tr ∈ g → annotation_of (volume_ids ids) (pressure_ids ids) g tr.
Proof. apply annotate_sound. Qed.

Lemma only_annotations_emitted_witness :
  let ids := ModelIds ["lv.blood.volume"] ["aa.blood.pressure"] ["x.blood.flow"] in
  let g := rdf_graph (exec (annotate ids) startup) in
  (variable_uri "aa.blood.pressure", bq_isVersionOf, PRESSURE_URI) ∈ g ∧
  annotation_of (volume_ids ids) (pressure_ids ids) g
    (variable_uri "aa.blood.pressure", bq_isVersionOf, PRESSURE_URI).
Proof.
  intros ids g.
  assert ((variable_uri "aa.blood.pressure", bq_isVersionOf, PRESSURE_URI) ∈ g) as H.
  { apply (bool_decide_unpack _). by vm_compute. }
  split; [exact H|]. exact (only_annotations_emitted ids startup _ H).
Defined.

(** X3 -- Identifiers that are neither volumes nor pressures (flows and
    unrecognised ones) are never annotated: no triple of the graph that the
    driver leaves has the variable URI of such an identifier as its subject
    or as its object. *)
Theorem other_identifiers_never_annotated (root : element) (σ : process) :
  let g := rdf_graph (exec (main (Some root)) σ) in
  ∀ id, endswith id ".blood.volume" = false →
        endswith id ".blood.pressure" = false →
  ∀ tr, tr ∈ g → tr.1.1 ≠ variable_uri id ∧ tr.2 ≠ variable_uri id.
Proof.
  intros g id Hv Hp tr Htr. subst g.
  unfold main in Htr. rewrite !exec_bind, exec_ret, eval_get_model_ids in Htr.
  apply annotate_sound in Htr. cbn [volume_ids pressure_ids] in Htr.
  assert (∀ id', id' ∈ filter (λ v, endswith v ".blood.volume" = true)
                         (collect_attributes root)
                     ++ filter (λ v, endswith v ".blood.pressure" = true)
                          (collect_attributes root) →
                 variable_uri id' ≠ variable_uri id) as Hne.
  { intros id' Hin ->%variable_uri_inj.
    apply elem_of_app in Hin as [[? _]%list_elem_of_filter | [? _]%list_elem_of_filter];
      congruence. }
  assert (∀ n, local_node n ≠ variable_uri id) as Hloc.
  { intros n Heq. apply (cellml_uri_not_local id). by exists n. }
  destruct Htr as [n id' Hin _ | n id' Hin _ | n id' Hin _ | id' Hin | id' Hin];
    cbn [fst snd]; split;
    first [ by apply Hloc
          | by apply Hne
          | by apply Hne, elem_of_app; left
          | by apply Hne, elem_of_app; right
          | by intros Heq; discriminate Heq ].
Qed.

Lemma other_identifiers_never_annotated_witness :
  let root :=
    Element "model" ∅
      [ Element "variable" {[ qualified_name := "lv.blood.volume" ]} [];
        Element "variable" {[ qualified_name := "aa.blood.flow" ]} [] ] in
  let g := rdf_graph (exec (main (Some root)) startup) in
  endswith "aa.blood.flow" ".blood.volume" = false ∧
  endswith "aa.blood.flow" ".blood.pressure" = false ∧
  (variable_uri "lv.blood.volume", bq_isVersionOf, VOLUME_URI) ∈ g ∧
  variable_uri "lv.blood.volume" ≠ variable_uri "aa.blood.flow".
Proof.
  intros root g.
  assert ((variable_uri "lv.blood.volume", bq_isVersionOf, VOLUME_URI) ∈ g) as H.
  { apply (bool_decide_unpack _). by vm_compute. }
  split; [reflexivity|]. split; [reflexivity|]. split; [exact H|].
  exact (proj1 (other_identifiers_never_annotated root startup "aa.blood.flow"
                  eq_refl eq_refl _ H)).
Defined.

(** X4 -- One node per location, also for unknown cavities.  In the graph
    that the driver's loops leave, two identifiers whose cavities resolve
    to the same location are properties of the same local node; every
    cavity that is not in the table resolves to UBERON 0001062, so all
    variables with unknown cavities share one node; and a variable is a
    property of one node only. *)
Theorem variables_share_node_per_location (ids : model_ids) (σ : process) :
  let g := rdf_graph (exec (annotate ids) σ) in
  let all := volume_ids ids ++ pressure_ids ids in
  (∀ id1 id2, id1 ∈ all → id2 ∈ all → location_of id1 = location_of id2 →
     ∃ n, (variable_uri id1, bq_isPropertyOf, local_node n) ∈ g ∧
          (variable_uri id2, bq_isPropertyOf, local_node n) ∈ g ∧
          blood_part_of g (local_node n) (location_of id1)) ∧
  (∀ id, cavity_map !! split_head "." id = None →
         location_of id = term UBERON "0001062") ∧
  (∀ id node node',
     (variable_uri id, bq_isPropertyOf, node) ∈ g →
     (variable_uri id, bq_isPropertyOf, node') ∈ g → node = node').
Proof.
  intros g all.
  pose proof (annotate_run_inv ids σ) as Hinv. fold g in Hinv.
  destruct (annotate_complete ids σ) as [Hvol Hpres]. fold g in Hvol, Hpres.
  assert (∀ id, id ∈ all →
            ∃ n, (variable_uri id, bq_isPropertyOf, local_node n) ∈ g ∧
                 blood_part_of g (local_node n) (location_of id)) as Hall.
  { intros id [Hid|Hid]%elem_of_app; [by apply Hvol | by apply Hpres]. }
  split_and!.
  - intros id1 id2 Hid1 Hid2 Hloc.
    destruct (Hall id1 Hid1) as (n1 & Hp1 & Hb1).
    destruct (Hall id2 Hid2) as (n2 & Hp2 & Hb2).
    rewrite <- Hloc in Hb2.
    assert (local_node n2 = local_node n1) as Heq
      by exact (inv_one_subject _ _ Hinv _ _ _ (proj2 Hb2) (proj2 Hb1)).
    rewrite Heq in Hp2. by exists n1.
  - intros id Hnone. unfold location_of, cavity_uri_of. by rewrite Hnone.
  - intros id node node' H1 H2.
    assert (∀ x, (variable_uri id, bq_isPropertyOf, x) ∈ g →
                 (x, bq_isPartOf, location_of id) ∈ g) as Hpart.
    { intros x Hx. apply (annotate_sound ids σ) in Hx. fold g in Hx.
      apply annotation_of_property in Hx as (n & id' & _ & Hid & -> & [_ Hb]).
      by apply variable_uri_inj in Hid as ->. }
    exact (inv_one_subject _ _ Hinv _ _ _ (Hpart _ H1) (Hpart _ H2)).
Qed.

Lemma variables_share_node_per_location_witness :
  let ids := ModelIds ["foo.blood.volume"] ["bar.blood.pressure"] [] in
  let g := rdf_graph (exec (annotate ids) startup) in
  (cavity_map !! split_head "." "foo.blood.volume" = None ∧
   cavity_map !! split_head "." "bar.blood.pressure" = None ∧
   location_of "foo.blood.volume" = location_of "bar.blood.pressure") ∧
  ∃ n, (variable_uri "foo.blood.volume", bq_isPropertyOf, local_node n) ∈ g ∧
       (variable_uri "bar.blood.pressure", bq_isPropertyOf, local_node n) ∈ g ∧
       ∀ node, (variable_uri "foo.blood.volume", bq_isPropertyOf, node) ∈ g →
               node = local_node n.
Proof.
  intros ids g.
  destruct (variables_share_node_per_location ids startup) as (Hshare & Hunknown & Hone).
  assert (cavity_map !! split_head "." "foo.blood.volume" = None) as H1 by (by vm_compute).
  assert (cavity_map !! split_head "." "bar.blood.pressure" = None) as H2
    by (by vm_compute).
  assert (location_of "foo.blood.volume" = location_of "bar.blood.pressure") as Hloc
    by (by rewrite (Hunknown _ H1), (Hunknown _ H2)).
  split; [done|].
  destruct (Hshare "foo.blood.volume" "bar.blood.pressure") as (n & Hp1 & Hp2 & _).
  { by left. } { right. by left. } { exact Hloc. }
  exists n. split; [exact Hp1|]. split; [exact Hp2|].
  intros node Hnode. exact (Hone _ _ _ Hnode Hp1).
Defined.

(** X5 -- What the driver prints.  The loops print one warning for every
    volume and then every pressure identifier whose cavity is not in the
    table, in order and once per identifier (a cavity that occurs twice is
    reported twice); the whole driver prints the [Unknown ID] lines of the
    extraction first and these warnings after them. *)
Theorem driver_output (ids : model_ids) (root : element) (σ : process) :
  stdout (exec (annotate ids) σ)
    = stdout σ ++ concat (cavity_warning <$> (volume_ids ids ++ pressure_ids ids)) ∧
  stdout (exec (main (Some root)) σ)
    = stdout σ
      ++ (unknown_id_line
            <$> filter (λ v, unrecognised v = true) (collect_attributes root))
      ++ concat (cavity_warning
                   <$> (filter (λ v, endswith v ".blood.volume" = true)
                          (collect_attributes root)
                        ++ filter (λ v, endswith v ".blood.pressure" = true)
                             (collect_attributes root))).
Proof.
  assert (∀ ids' τ, stdout (exec (annotate ids') τ)
                    = stdout τ ++ concat (cavity_warning
                                            <$> (volume_ids ids' ++ pressure_ids ids')))
    as Hann.
  { intros ids' τ. unfold annotate.
    rewrite !exec_bind, emit_volume, emit_pressure, !for_each_emit_stdout.
    by rewrite fmap_app, concat_app, app_assoc. }
  split; [apply Hann|].
  unfold main. rewrite !exec_bind, exec_ret, eval_get_model_ids, Hann.
  cbn [volume_ids pressure_ids]. rewrite app_assoc. f_equal.
  unfold exec, get_model_ids. by rewrite classify_all_eq.
Qed.

(** X6 -- One node per distinct location.  The driver's loops raise the
    counter by exactly the number of distinct locations that the cavities
    of the volume and pressure identifiers resolve to, and the locations
    that have a node in the graph are exactly those. *)
Theorem one_node_per_distinct_location (ids : model_ids) (σ : process) :
  let σ' := exec (annotate ids) σ in
  let all := volume_ids ids ++ pressure_ids ids in
  _LOCAL_ID_COUNTER σ'
    = _LOCAL_ID_COUNTER σ
      + Z.of_nat (size (list_to_set (location_of <$> all) : gset string)) ∧
  (∀ o, (∃ s, (s, bq_isPartOf, o) ∈ rdf_graph σ') ↔ o ∈ location_of <$> all).
Proof.
  intros σ' all. subst σ' all. unfold annotate.
  rewrite !exec_bind, emit_volume, emit_pressure.
  set (σ0 := exec new_graph σ).
  assert (∀ o, o ∈ (∅ : gset string) ↔ ∃ s, (s, bq_isPartOf, o) ∈ rdf_graph σ0) as H0.
  { intros o. split; [set_solver|]. intros [s Hs]. by apply not_elem_of_nil in Hs. }
  destruct (loop_counter VOLUME_URI (volume_ids ids) σ0 ∅ H0) as [Hc1 HS1].
  cbn zeta in Hc1, HS1.
  destruct (loop_counter PRESSURE_URI (pressure_ids ids) _ _ HS1) as [Hc2 HS2].
  cbn zeta in Hc2, HS2. rewrite Hc2, Hc1. split.
  - rewrite fmap_app, list_to_set_app_L, size_union_difference.
    replace (list_to_set (location_of <$> volume_ids ids) ∖ ∅)
      with (list_to_set (location_of <$> volume_ids ids) : gset string)
      by (clear; set_solver).
    replace (∅ ∪ list_to_set (location_of <$> volume_ids ids))
      with (list_to_set (location_of <$> volume_ids ids) : gset string)
      by (clear; set_solver).
    change (_LOCAL_ID_COUNTER σ0) with (_LOCAL_ID_COUNTER σ). lia.
  - intros o. rewrite <- HS2, fmap_app, elem_of_app.
    rewrite !elem_of_union, !elem_of_list_to_set. clear. set_solver.
Qed.



(** X8 -- Dotted identifiers of table cavities.  For every key of the
    cavity table and every rest, the identifier [key.rest] has that key as
    its cavity, resolves to the UBERON term of the key and causes no
    warning (no key of the table contains a dot). *)
Theorem table_cavity_of_dotted_id (key code rest : string) :
  cavity_map !! key = Some code →
  split_head "." (key +:+ "." +:+ rest) = key ∧
  location_of (key +:+ "." +:+ rest) = term UBERON code ∧
  cavity_warning (key +:+ "." +:+ rest) = [].
Proof.
  intros Hkey.
  assert (split_head "." (key +:+ "." +:+ rest) = key) as Hsplit.
  { apply cavity_map_keys in Hkey.
    repeat (apply elem_of_cons in Hkey as [[= -> _] | Hkey]; [reflexivity|]).
    by apply not_elem_of_nil in Hkey. }
  unfold location_of, cavity_warning, cavity_uri_of. by rewrite Hsplit, Hkey.
Qed.

Lemma table_cavity_of_dotted_id_witness :
  cavity_map !! "pulm-vein" = Some "0002016" ∧
  location_of "pulm-vein.blood.pressure" = term UBERON "0002016".
Proof.
  assert (cavity_map !! "pulm-vein" = Some "0002016") as H by (by vm_compute).
  split; [exact H|].
  exact (proj1 (proj2 (table_cavity_of_dotted_id "pulm-vein" "0002016" "blood.pressure" H))).
Defined.




(** X11 -- Local nodes are well formed.  In a run that starts on an empty
    graph with the counter at [c], after any sequence of calls: the graph
    has no duplicate triple; every [is] triple says that a local node
    numbered in [(c, counter]] is blood; and a node is part of one location
    only. *)
Theorem local_nodes_well_formed (c : Z) (out : list string) (calls : list call) :
  let σ := run calls (fresh c out) in
  NoDup (rdf_graph σ) ∧
  (∀ s o, (s, bq_is, o) ∈ rdf_graph σ →
     o = BLOOD_URI ∧ ∃ n, c < n ≤ _LOCAL_ID_COUNTER σ ∧ s = local_node n) ∧
  (∀ s o o', (s, bq_isPartOf, o) ∈ rdf_graph σ →
             (s, bq_isPartOf, o') ∈ rdf_graph σ → o = o').
Proof.
  intros σ. assert (run_inv c σ) as Hinv by apply run_inv_run, run_inv_fresh.
  split_and!.
  - apply (inv_nodup _ _ Hinv).
  - intros s o Hin. destruct (inv_is _ _ Hinv _ _ Hin) as [Hn ->]. by split.
  - apply (inv_one_location _ _ Hinv).
Qed.

Lemma local_nodes_well_formed_witness :
  let σ := run [AnnotateVolume cellml_file "lv.blood.volume";
                AnnotatePressure "other.cellml" "lv.blood.pressure"] (fresh 2000 []) in
  (local_node 2001, bq_is, BLOOD_URI) ∈ rdf_graph σ ∧
  (local_node 2001, bq_isPartOf, term UBERON "0016514") ∈ rdf_graph σ ∧
  ∃ n, 2000 < n ≤ _LOCAL_ID_COUNTER σ ∧ local_node 2001 = local_node n.
Proof.
  intros σ.
  destruct (local_nodes_well_formed 2000 []
              [AnnotateVolume cellml_file "lv.blood.volume";
               AnnotatePressure "other.cellml" "lv.blood.pressure"]) as (_ & His & Hloc).
  assert ((local_node 2001, bq_is, BLOOD_URI) ∈ rdf_graph σ) as H1.
  { apply (bool_decide_unpack _). by vm_compute. }
  assert ((local_node 2001, bq_isPartOf, term UBERON "0016514") ∈ rdf_graph σ) as H2.
  { apply (bool_decide_unpack _). by vm_compute. }
  split; [exact H1|]. split; [exact H2|].
  pose proof (Hloc _ _ _ H2 H2) as _.
  exact (proj2 (His _ _ H1)).
Defined.
